(** * Conway's Game of Life on a periodic grid: a shallow embedding of
      [conwaysPeriodicMultithreaded.py] and the properties of its update engine.

    The Python program is embedded as it is written (Python 3 semantics):
    integers are [Z], lists are [list] read and written by index with
    Python's rules (negative indices count from the end, an index out of
    range raises [IndexError]), [%] and [//] are floor modulo and floor
    division and raise [ZeroDivisionError] on a zero divisor.  A method that
    mutates [self], prints or reads the timer is a computation in a small
    state-and-exception monad. *)

From Stdlib Require Import ZArith QArith Lia String.
From stdpp Require Import base list.

Local Open Scope Z_scope.

(** ** Exceptions and the two monads *)

Inductive exn : Set := IndexError | ZeroDivisionError | TypeError.

Inductive result (A : Type) : Type :=
| Ok (a : A)
| Raise (e : exn).
Arguments Ok {A} a.
Arguments Raise {A} e.

Definition bindR {A B} (r : result A) (k : A -> result B) : result B :=
  match r with
  | Ok a => k a
  | Raise e => Raise e
  end.

Declare Scope py_scope.
Delimit Scope py_scope with py.
Notation "x <- e ;; k" := (bindR e (fun x => k))
  (at level 100, e at next level, right associativity) : py_scope.
Local Open Scope py_scope.

(** ** Python primitives *)

(** [a % b] and [a // b] on integers. *)
Definition py_mod (a b : Z) : result Z :=
  if b =? 0 then Raise ZeroDivisionError else Ok (a mod b).

Definition py_floordiv (a b : Z) : result Z :=
  if b =? 0 then Raise ZeroDivisionError else Ok (a / b).

(** [range(a, b)]. *)
Definition range (a b : Z) : list Z :=
  map (fun i : nat => a + Z.of_nat i) (seq 0 (Z.to_nat (b - a))).

(** The position a Python index denotes in a list of length [n], if any. *)
Definition py_slot (n : nat) (i : Z) : option nat :=
  let j := if i <? 0 then i + Z.of_nat n else i in
  if (0 <=? j) && (j <? Z.of_nat n) then Some (Z.to_nat j) else None.

(** [l[i]]. *)
Definition py_getitem {A} (l : list A) (i : Z) : result A :=
  match py_slot (length l) i with
  | Some j => match l !! j with Some a => Ok a | None => Raise IndexError end
  | None => Raise IndexError
  end.

(** [l[i] = v]. *)
Definition py_setitem {A} (l : list A) (i : Z) (v : A) : result (list A) :=
  match py_slot (length l) i with
  | Some j => Ok (<[j := v]> l)
  | None => Raise IndexError
  end.

(** [sum(f(a) for a in l)]: the terms are produced and added from left to
    right, starting from 0; the first exception ends the sum. *)
Fixpoint sum_from {A} (acc : Z) (f : A -> result Z) (l : list A) : result Z :=
  match l with
  | [] => Ok acc
  | a :: l' => v <- f a;; sum_from (acc + v) f l'
  end.

Definition py_sum {A} (f : A -> result Z) (l : list A) : result Z :=
  sum_from 0 f l.

(** [[f(a) for a in l]]. *)
Fixpoint comprehension {A B} (f : A -> result B) (l : list A) : result (list B) :=
  match l with
  | [] => Ok []
  | a :: l' => b <- f a;; bs <- comprehension f l';; Ok (b :: bs)
  end.

(** [(i, k) in l] for a list of integer pairs. *)
Definition Point : Type := Z * Z.

Definition point_eqb (p q : Point) : bool :=
  (fst p =? fst q) && (snd p =? snd q).

Definition py_in (p : Point) (l : list Point) : bool :=
  existsb (point_eqb p) l.

(** ** Configuration constants *)

Definition OUTPUT_TYPE : option string := None.
Definition DEAD_CHARACTER : string := "  ".
Definition ALIVE_CHARACTER : string := "[]".
Definition ITERATION_COUNT : Z := 1000.
Definition TIME_BETWEEN_ITERATIONS : Z := 0.
Definition RESURRECTION_THRESHOLD : Z := 3.
Definition LIFE_THRESHOLD : Z := 2.
Definition ROWS : Z := 5.
Definition COLS : Z := 10.
Definition START_CELLS : list Point := [(0, 2); (1, 2); (2, 2); (2, 1); (1, 0)].

(** ** class Grid *)

Record Grid : Type := mkGrid {
  rows : Z;
  cols : Z;
  grid : list (list Z)
}.

(** An update record [(point, v)], or [None]. *)
Definition Update : Type := Point * Z.

Module Grid.

(** [Grid.__init__]: row [k] holds, at column [i], 1 when [(i, k)] is in
    [_startOn].  Each row is a list object of its own. *)
Definition __init__ (_rows _cols : Z) (_startOn : list Point) : Grid :=
  {| rows := _rows;
     cols := _cols;
     grid := map (fun k => map (fun i => if py_in (i, k) _startOn then 1 else 0)
                               (range 0 _cols))
                 (range 0 _rows) |}.

(** [self.grid[x][y]]. *)
Definition getcell (g : Grid) (x y : Z) : result Z :=
  row <- py_getitem (grid g) x;; py_getitem row y.

(** One term of the neighbour sum:
    [0 if (i==x and k==y) else self.grid[i%self.rows][k%self.cols]]. *)
Definition neighborTerm (g : Grid) (x y i k : Z) : result Z :=
  if (i =? x) && (k =? y) then Ok 0
  else
    r <- py_mod i (rows g);;
    row <- py_getitem (grid g) r;;
    c <- py_mod k (cols g);;
    py_getitem row c.

(** The local [neighborCount] of [neighborChecks]: the outer sum runs over
    [k in range(y-1, y+2)], the inner one over [i in range(x-1, x+2)]. *)
Definition neighborCount (g : Grid) (point : Point) : result Z :=
  let '(x, y) := point in
  py_sum (fun k => py_sum (fun i => neighborTerm g x y i k) (range (x - 1) (x + 2)))
         (range (y - 1) (y + 2)).

(** [Grid.neighborChecks].  [and] is short-circuit: the cell is read only
    when the comparison before it holds.  Falling off the end returns
    [None]. *)
Definition neighborChecks (g : Grid) (point : Point) : result (option Update) :=
  let '(x, y) := point in
  n <- neighborCount g point;;
  c1 <- (if n =? RESURRECTION_THRESHOLD
         then v <- getcell g x y;; Ok (v =? 0)
         else Ok false);;
  if c1 : bool then Ok (Some (point, 1))
  else
    c2 <- (if negb (n =? LIFE_THRESHOLD) && negb (n =? RESURRECTION_THRESHOLD)
           then v <- getcell g x y;; Ok (negb (v =? 0))
           else Ok false);;
    if c2 : bool then Ok (Some (point, 0)) else Ok None.

(** *** Methods that act on the object and on the outside world *)

(** What a method call can read and change: the object itself, the text
    printed so far, and the timer.  [timer n] is the reading returned by the
    [n]-th call of [defaultTimer]; readings are rationals standing for the
    floating-point seconds of the source. *)
Record Env : Type := mkEnv {
  self : Grid;
  stdout : list string;
  timer : nat -> Q;
  ticks : nat
}.

Definition M (A : Type) : Type := Env -> result (A * Env).

Definition ret {A} (a : A) : M A := fun s => Ok (a, s).

Definition bindM {A B} (m : M A) (k : A -> M B) : M B :=
  fun s => match m s with
           | Ok (a, s') => k a s'
           | Raise e => Raise e
           end.

Notation "x <~ e ;; k" := (bindM e (fun x => k))
  (at level 100, e at next level, right associativity) : py_scope.
Notation "e ;;; k" := (bindM e (fun _ => k))
  (at level 100, right associativity) : py_scope.

(** A computation that only reads [self]. *)
Definition reading {A} (f : Grid -> result A) : M A :=
  fun s => match f (self s) with
           | Ok a => Ok (a, s)
           | Raise e => Raise e
           end.

Definition defaultTimer : M Q :=
  fun s => Ok (timer s (ticks s),
               {| self := self s; stdout := stdout s;
                  timer := timer s; ticks := S (ticks s) |}).

Definition print (msg : string) : M unit :=
  fun s => Ok (tt, {| self := self s; stdout := stdout s ++ [msg];
                      timer := timer s; ticks := ticks s |}).

(** [time.sleep(TIME_BETWEEN_ITERATIONS)] changes nothing that is modelled. *)
Definition sleep (_ : Z) : M unit := ret tt.

(** [self.grid[point[0]][point[1]] = v]: the row object is fetched, then
    written in place. *)
Definition setcell (point : Point) (v : Z) : M unit :=
  fun s =>
    let g := self s in
    r <- py_getitem (grid g) (fst point);;
    r' <- py_setitem r (snd point) v;;
    g' <- py_setitem (grid g) (fst point) r';;
    Ok (tt, {| self := {| rows := rows g; cols := cols g; grid := g' |};
               stdout := stdout s; timer := timer s; ticks := ticks s |}).

(** [map(f, l)] of Python 3 is an iterator: it holds one suspended call per
    element and runs a call only when its value is asked for. *)
Definition lazy_map {A B} (f : A -> M B) (l : list A) : list (M B) :=
  map f l.

(** A list that is already computed, seen as an iterator. *)
Definition iter {B} (l : list B) : list (M B) :=
  map ret l.

(** [for x in filter(keep, it): body(x)].  [filter] is an iterator as well:
    each round asks [it] for one value, tests it, and hands it to the loop
    body before the next value is asked for. *)
Fixpoint for_filter {B} (keep : B -> bool) (it : list (M B)) (body : B -> M unit)
  : M unit :=
  match it with
  | [] => ret tt
  | t :: it' =>
      x <~ t;;
      (if keep x then body x else ret tt);;;
      for_filter keep it' body
  end.

(** [lambda x: x != None]. *)
Definition not_None {A} (x : option A) : bool :=
  match x with Some _ => true | None => false end.

(** The loop body shared by both iterate methods: [point, v] is unpacked
    from the item and the cell is written. *)
Definition commit (x : option Update) : M unit :=
  match x with
  | Some (point, v) => setcell point v
  | None => fun _ => Raise TypeError
  end.

(** [[(i // self.cols, i % self.cols) for i in range(self.rows * self.cols)]]. *)
Definition grid1Ds (g : Grid) : result (list Point) :=
  comprehension (fun i => q <- py_floordiv i (cols g);;
                          r <- py_mod i (cols g);;
                          Ok (q, r))
                (range 0 (rows g * cols g)).

(** A [multiprocessing.Pool] with [processes] workers. *)
Record Pool : Type := mkPool { processes : positive }.

(** The batches [Pool.map] cuts its input into. *)
Fixpoint chunks {A} (fuel n : nat) (l : list A) : list (list A) :=
  match fuel with
  | O => []
  | S fuel' =>
      match l with
      | [] => []
      | _ => take n l :: chunks fuel' n (drop n l)
      end
  end.

Definition chunksize (p : Pool) (len : nat) : nat :=
  let d := (4 * Pos.to_nat (processes p))%nat in
  if (len mod d =? 0)%nat then (len / d)%nat else S (len / d).

(** [p.map(f, l)]: the bound method, and with it a copy of the object as it
    is at the call, is sent to the workers; every batch is evaluated against
    that copy and the caller waits for the whole list, in the order of [l].
    An exception in a worker is raised again in the caller. *)
Definition pool_map {A B} (p : Pool) (f : A -> result B) (l : list A)
  : result (list B) :=
  bs <- comprehension (comprehension f)
                      (chunks (length l) (chunksize p (length l)) l);;
  Ok (concat bs).

(** [Grid.iterateSingleCore]. *)
Definition iterateSingleCore : M Q :=
  startTime <~ defaultTimer;;
  grid1Ds <~ reading grid1Ds;;
  let changeList := lazy_map (fun pt => reading (fun g => neighborChecks g pt)) grid1Ds in
  for_filter not_None changeList commit;;;
  now <~ defaultTimer;;
  let deltaTime := (now - startTime)%Q in
  ret deltaTime.

(** [Grid.iterateMultiCore]. *)
Definition iterateMultiCore (p : Pool) : M Q :=
  startTime <~ defaultTimer;;
  grid1Ds <~ reading grid1Ds;;
  results <~ reading (fun g => pool_map p (neighborChecks g) grid1Ds);;
  for_filter not_None (iter results) commit;;;
  now <~ defaultTimer;;
  let deltaTime := (now - startTime)%Q in
  ret deltaTime.

(** [Grid.__str__]. *)
Definition __str__ (g : Grid) : result string :=
  lines <- comprehension
             (fun i =>
                cells <- comprehension
                           (fun k => v <- getcell g i k;;
                                     Ok (if v =? 0 then DEAD_CHARACTER
                                         else ALIVE_CHARACTER))
                           (range 0 (cols g));;
                Ok (String.concat "" cells))
             (range 0 (rows g));;
  Ok (String.concat (String (Ascii.ascii_of_nat 10) "") lines).

Definition is_Console (o : option string) : bool :=
  match o with Some s => String.eqb s "Console" | None => false end.

(** The body of the loop of [run], from the current [timeSum] to the next. *)
Definition run_body (p : Pool) (processing : string) (timeSum : Q) : M Q :=
  (if is_Console OUTPUT_TYPE
   then (text <~ reading __str__;; print text)
   else ret tt);;;
  timeSum' <~ (if String.eqb processing "Multi"
               then (dt <~ iterateMultiCore p;; ret (timeSum + dt)%Q)
               else if String.eqb processing "Single"
               then (dt <~ iterateSingleCore;; ret (timeSum + dt)%Q)
               else (print "Please input a valid processing type.";;;
                     ret timeSum));;
  sleep TIME_BETWEEN_ITERATIONS;;;
  ret timeSum'.

Fixpoint run_loop (p : Pool) (processing : string) (ns : list Z) (timeSum : Q) : M Q :=
  match ns with
  | [] => ret timeSum
  | _ :: ns' =>
      timeSum' <~ run_body p processing timeSum;;
      run_loop p processing ns' timeSum'
  end.

(** [Grid.run]. *)
Definition run (p : Pool) (processing : string) : M Q :=
  timeSum <~ run_loop p processing (range 0 ITERATION_COUNT) 0%Q;;
  if ITERATION_COUNT =? 0 then (fun _ => Raise ZeroDivisionError)
  else ret (timeSum * 1000 / inject_Z ITERATION_COUNT)%Q.

End Grid.

Import Grid.

(** ** The main block *)

Definition GENERATING_DATA : bool := true.
Definition PROCESSING_TYPE : string := "Multi".



(** [grid = Grid(r, c, START_CELLS)]: from here on the method calls act on
    the new object. *)
Definition bind_grid (g : Grid) : M unit :=
  fun s => Ok (tt, {| self := g; stdout := stdout s;
                      timer := timer s; ticks := ticks s |}).



(** The other branch: one run on the configured grid. *)
Definition display (p : Pool) : M Q :=
  bind_grid (Grid.__init__ ROWS COLS START_CELLS);;;
  run p PROCESSING_TYPE.

(** ** Vocabulary of the properties *)


(** The text of a matrix: one line per row, one glyph per cell. *)
Definition glyph (v : Z) : string :=
  if v =? 0 then DEAD_CHARACTER else ALIVE_CHARACTER.

Definition render_row (row : list Z) : string :=
  String.concat "" (map glyph row).

Definition render (m : list (list Z)) : string :=
  String.concat (String (Ascii.ascii_of_nat 10) "") (map render_row m).

(** A grid as [__init__] builds it and as the iterate methods keep it:
    [rows] rows of [cols] cells, every cell 0 or 1. *)
Definition WellFormed (g : Grid) : Prop :=
  0 <= rows g /\ 0 <= cols g /\
  length (grid g) = Z.to_nat (rows g) /\
  Forall (fun r => length r = Z.to_nat (cols g) /\
                   Forall (fun v => v = 0 \/ v = 1) r) (grid g).

Definition InBounds (g : Grid) (p : Point) : Prop :=
  0 <= fst p < rows g /\ 0 <= snd p < cols g.

(** The value stored at a position (0 outside the matrix). *)
Definition cell (g : Grid) (p : Point) : Z :=
  match grid g !! Z.to_nat (fst p) with
  | Some r => match r !! Z.to_nat (snd p) with Some v => v | None => 0 end
  | None => 0
  end.

Definition alive (g : Grid) (p : Point) : bool := negb (cell g p =? 0).

Definition count_alive (g : Grid) (ps : list Point) : Z :=
  Z.of_nat (length (filter (fun q => alive g q = true) ps)).

(** The eight offsets of a neighbourhood, in the order the sums visit them,
    and the positions they reach after reduction modulo the dimensions. *)
Definition offsets8 : list Point :=
  [(-1, -1); (0, -1); (1, -1); (-1, 0); (1, 0); (-1, 1); (0, 1); (1, 1)].

Definition wrap (g : Grid) (p d : Point) : Point :=
  ((fst p + fst d) mod rows g, (snd p + snd d) mod cols g).

Definition neighbors8 (g : Grid) (p : Point) : list Point :=
  map (wrap g p) offsets8.

(** The value the rule of the game gives a cell for the next generation,
    from the grid as it is now. *)
Definition next_cell (g : Grid) (p : Point) : Z :=
  let n := count_alive g (neighbors8 g p) in
  if cell g p =? 0
  then (if n =? RESURRECTION_THRESHOLD then 1 else 0)
  else (if (n =? LIFE_THRESHOLD) || (n =? RESURRECTION_THRESHOLD) then 1 else 0).

(** The neighbours with every occurrence of the centre position removed. *)
Definition without_center (p : Point) (ps : list Point) : list Point :=
  filter (fun q => q <> p) ps.

Definition AllDead (g : Grid) : Prop :=
  Forall (Forall (fun v => v = 0)) (grid g).

(** The cells of a 2x2 block whose first cell is [(r0, c0)]; the block may
    lie across the wrap-around. *)
Definition in_block (g : Grid) (r0 c0 : Z) (p : Point) : bool :=
  ((fst p - r0) mod rows g <? 2) && ((snd p - c0) mod cols g <? 2).

Definition IsBlock (g : Grid) (r0 c0 : Z) : Prop :=
  forall p, InBounds g p -> cell g p = if in_block g r0 c0 p then 1 else 0.

(** One generation by either strategy, and a sequence of generations. *)
Inductive Strategy : Type :=
| Single
| Multi (p : Pool).

Definition step (st : Strategy) : M Q :=
  match st with
  | Single => iterateSingleCore
  | Multi p => iterateMultiCore p
  end.

Fixpoint generations (sts : list Strategy) : M unit :=
  match sts with
  | [] => ret tt
  | st :: sts' => step st;;; generations sts'
  end.

Definition with_grid (s : Env) (g : Grid) : Env :=
  {| self := g; stdout := stdout s; timer := timer s; ticks := ticks s |}.

Definition tick (s : Env) (n : nat) : Env :=
  {| self := self s; stdout := stdout s; timer := timer s;
     ticks := (n + ticks s)%nat |}.

Definition printed (s : Env) (msgs : list string) : Env :=
  {| self := self s; stdout := stdout s ++ msgs; timer := timer s;
     ticks := ticks s |}.

(** The starting state of a run on a fresh grid. *)
Definition start (g : Grid) (tm : nat -> Q) : Env :=
  {| self := g; stdout := []; timer := tm; ticks := 0 |}.

Example glider_grid :
  grid (Grid.__init__ 5 10 START_CELLS) =
  [ [0;1;0;0;0;0;0;0;0;0];
    [0;0;1;0;0;0;0;0;0;0];
    [1;1;1;0;0;0;0;0;0;0];
    [0;0;0;0;0;0;0;0;0;0];
    [0;0;0;0;0;0;0;0;0;0] ].
Proof. reflexivity. Qed.

(** ** Python primitives on inputs in range *)

Lemma range3 (x : Z) : range (x - 1) (x + 2) = [x - 1; x; x + 1].
Proof.
  unfold range. replace (x + 2 - (x - 1)) with 3 by lia.
  change (Z.to_nat 3) with 3%nat. cbn [seq map].
  f_equal; [lia|]. f_equal; [lia|]. f_equal; lia.
Qed.

Lemma range_length (a b : Z) : length (range a b) = Z.to_nat (b - a).
Proof. unfold range. now rewrite length_map, length_seq. Qed.

Lemma range_lookup (a b : Z) (n : nat) :
  (n < Z.to_nat (b - a))%nat -> range a b !! n = Some (a + Z.of_nat n).
Proof.
  intros Hn. unfold range. rewrite list_lookup_fmap.
  rewrite lookup_seq_lt by exact Hn. reflexivity.
Qed.

Lemma elem_of_range (a b i : Z) : i ∈ range a b <-> a <= i < b.
Proof.
  unfold range. rewrite list_elem_of_fmap. split.
  - intros (n & -> & Hn). apply elem_of_seq in Hn. lia.
  - intros Hi. exists (Z.to_nat (i - a)). split; [lia|].
    apply elem_of_seq. lia.
Qed.

Lemma py_slot_nonneg (n : nat) (i : Z) :
  0 <= i < Z.of_nat n -> py_slot n i = Some (Z.to_nat i).
Proof.
  intros Hi. unfold py_slot.
  destruct (Z.ltb_spec i 0); [lia|].
  destruct (Z.leb_spec 0 i); [|lia].
  destruct (Z.ltb_spec i (Z.of_nat n)); [reflexivity|lia].
Qed.

Lemma py_getitem_lookup {A} (l : list A) (i : Z) (a : A) :
  0 <= i -> l !! Z.to_nat i = Some a -> py_getitem l i = Ok a.
Proof.
  intros Hi Hl. unfold py_getitem.
  assert (Z.to_nat i < length l)%nat by (eapply lookup_lt_Some; eassumption).
  rewrite py_slot_nonneg by lia. now rewrite Hl.
Qed.

Lemma py_setitem_insert {A} (l : list A) (i : Z) (v : A) :
  0 <= i < Z.of_nat (length l) -> py_setitem l i v = Ok (<[Z.to_nat i := v]> l).
Proof. intros Hi. unfold py_setitem. now rewrite py_slot_nonneg. Qed.

Lemma py_mod_pos (a b : Z) : 0 < b -> py_mod a b = Ok (a mod b).
Proof.
  intros Hb. unfold py_mod. destruct (Z.eqb_spec b 0); [lia|reflexivity].
Qed.

(** ** Reading a well-formed grid *)

Lemma wf_lookup (g : Grid) (p : Point) :
  WellFormed g -> InBounds g p ->
  exists r v, grid g !! Z.to_nat (fst p) = Some r /\
              r !! Z.to_nat (snd p) = Some v /\
              length r = Z.to_nat (cols g) /\ (v = 0 \/ v = 1).
Proof.
  intros (Hr & Hc & Hlen & Hrows) [Hx Hy].
  destruct (lookup_lt_is_Some_2 (grid g) (Z.to_nat (fst p))) as [r Hrow]; [lia|].
  pose proof (proj1 (Forall_lookup _ _) Hrows _ _ Hrow) as [Hlr Hbin].
  destruct (lookup_lt_is_Some_2 r (Z.to_nat (snd p))) as [v Hv]; [lia|].
  exists r, v. repeat split; try assumption.
  exact (proj1 (Forall_lookup _ _) Hbin _ _ Hv).
Qed.

Lemma cell_binary (g : Grid) (p : Point) :
  WellFormed g -> InBounds g p -> cell g p = 0 \/ cell g p = 1.
Proof.
  intros Hwf Hin. destruct (wf_lookup g p Hwf Hin) as (r & v & Hr & Hv & _ & Hb).
  unfold cell. now rewrite Hr, Hv.
Qed.

Lemma getcell_cell (g : Grid) (x y : Z) :
  WellFormed g -> InBounds g (x, y) -> getcell g x y = Ok (cell g (x, y)).
Proof.
  intros Hwf Hin. destruct (wf_lookup g _ Hwf Hin) as (r & v & Hr & Hv & _ & _).
  destruct Hin as [Hx Hy]. cbn [fst snd] in *.
  unfold getcell, cell. cbn [fst snd].
  rewrite (py_getitem_lookup _ _ _ (proj1 Hx) Hr). cbn [bindR].
  rewrite (py_getitem_lookup _ _ _ (proj1 Hy) Hv). now rewrite Hr, Hv.
Qed.

Lemma wrap_InBounds (g : Grid) (p d : Point) :
  0 < rows g -> 0 < cols g -> InBounds g (wrap g p d).
Proof.
  intros Hr Hc. split; cbn [fst snd wrap];
    apply Z.mod_pos_bound; assumption.
Qed.

Lemma neighborTerm_wrap (g : Grid) (x y i k : Z) :
  WellFormed g -> 0 < rows g -> 0 < cols g ->
  neighborTerm g x y i k =
  Ok (if (i =? x) && (k =? y) then 0 else cell g (i mod rows g, k mod cols g)).
Proof.
  intros Hwf Hr Hc. unfold neighborTerm.
  destruct ((i =? x) && (k =? y)); [reflexivity|].
  assert (Hin : InBounds g (i mod rows g, k mod cols g))
    by (split; cbn [fst snd]; apply Z.mod_pos_bound; assumption).
  destruct (wf_lookup g _ Hwf Hin) as (r & v & Hrow & Hv & _ & _).
  destruct Hin as [Hx Hy]. cbn [fst snd] in *.
  rewrite (py_mod_pos _ _ Hr). cbn [bindR].
  rewrite (py_getitem_lookup _ _ _ (proj1 Hx) Hrow). cbn [bindR].
  rewrite (py_mod_pos _ _ Hc). cbn [bindR].
  rewrite (py_getitem_lookup _ _ _ (proj1 Hy) Hv).
  unfold cell. cbn [fst snd]. now rewrite Hrow, Hv.
Qed.

Lemma neighbors8_unfold (g : Grid) (x y : Z) :
  neighbors8 g (x, y) =
  [ ((x - 1) mod rows g, (y - 1) mod cols g);
    (x mod rows g, (y - 1) mod cols g);
    ((x + 1) mod rows g, (y - 1) mod cols g);
    ((x - 1) mod rows g, y mod cols g);
    ((x + 1) mod rows g, y mod cols g);
    ((x - 1) mod rows g, (y + 1) mod cols g);
    (x mod rows g, (y + 1) mod cols g);
    ((x + 1) mod rows g, (y + 1) mod cols g) ].
Proof.
  unfold neighbors8, offsets8, wrap. cbn [map fst snd].
  rewrite !Z.add_0_r. reflexivity.
Qed.

Lemma neighbors8_InBounds (g : Grid) (p : Point) :
  0 < rows g -> 0 < cols g -> Forall (InBounds g) (neighbors8 g p).
Proof.
  intros Hr Hc. unfold neighbors8. apply Forall_fmap, Forall_forall.
  intros d _. now apply wrap_InBounds.
Qed.

Lemma count_alive_nil (g : Grid) : count_alive g [] = 0.
Proof. reflexivity. Qed.

Lemma count_alive_cons (g : Grid) (q : Point) (ps : list Point) :
  cell g q = 0 \/ cell g q = 1 ->
  count_alive g (q :: ps) = cell g q + count_alive g ps.
Proof.
  intros Hq. unfold count_alive. rewrite filter_cons. unfold alive.
  destruct Hq as [-> | ->]; cbn.
  - destruct (decide (false = true)); [discriminate|]. lia.
  - destruct (decide (true = true)); [|congruence].
    cbn [length]. lia.
Qed.

(** The sum computed by [neighborChecks] is the number of alive positions in
    the list of the eight wrapped neighbours, a position that occurs several
    times being counted each time. *)
Lemma neighborCount_wrapped (g : Grid) (p : Point) :
  WellFormed g -> InBounds g p ->
  neighborCount g p = Ok (count_alive g (neighbors8 g p)).
Proof.
  intros Hwf Hin. destruct p as [x y].
  assert (Hr : 0 < rows g) by (destruct Hin; cbn in *; lia).
  assert (Hc : 0 < cols g) by (destruct Hin; cbn in *; lia).
  pose proof (neighbors8_InBounds g (x, y) Hr Hc) as Hnb.
  rewrite neighbors8_unfold in *.
  repeat match goal with
         | H : Forall _ (_ :: _) |- _ =>
             apply Forall_cons in H; destruct H as [?%(cell_binary g _ Hwf) H]
         end.
  rewrite !count_alive_cons, count_alive_nil by assumption.
  unfold neighborCount, py_sum. rewrite !range3. cbn [sum_from].
  rewrite !(neighborTerm_wrap g x y) by assumption.
  rewrite !Z.eqb_refl.
  replace (x - 1 =? x) with false by (symmetry; apply Z.eqb_neq; lia).
  replace (x + 1 =? x) with false by (symmetry; apply Z.eqb_neq; lia).
  replace (y - 1 =? y) with false by (symmetry; apply Z.eqb_neq; lia).
  replace (y + 1 =? y) with false by (symmetry; apply Z.eqb_neq; lia).
  cbn [andb bindR sum_from]. f_equal. lia.
Qed.

(** ** Arithmetic of the wrap-around *)

Lemma mod_succ (u r : Z) :
  0 <= u < r -> (u + 1) mod r = if u + 1 =? r then 0 else u + 1.
Proof.
  intros Hu. destruct (Z.eqb_spec (u + 1) r) as [->|Hne].
  - apply Z_mod_same_full.
  - apply Z.mod_small. lia.
Qed.

Lemma mod_pred (u r : Z) :
  0 <= u < r -> (u - 1) mod r = if u =? 0 then r - 1 else u - 1.
Proof.
  intros Hu. destruct (Z.eqb_spec u 0) as [->|Hne].
  - replace (0 - 1) with (r - 1 + (-1) * r) by lia.
    rewrite Z_mod_plus_full. apply Z.mod_small. lia.
  - apply Z.mod_small. lia.
Qed.

Lemma wrap_three_distinct (x r : Z) :
  3 <= r -> 0 <= x < r ->
  (x - 1) mod r <> x mod r /\ (x + 1) mod r <> x mod r /\
  (x - 1) mod r <> (x + 1) mod r.
Proof.
  intros Hr Hx. rewrite (Z.mod_small x r), mod_succ, mod_pred by lia.
  destruct (Z.eqb_spec x 0), (Z.eqb_spec (x + 1) r); lia.
Qed.

Lemma wrap_two_distinct (x r : Z) :
  2 <= r -> 0 <= x < r -> (x - 1) mod r <> x /\ (x + 1) mod r <> x.
Proof.
  intros Hr Hx. rewrite mod_succ, mod_pred by lia.
  destruct (Z.eqb_spec x 0), (Z.eqb_spec (x + 1) r); lia.
Qed.

Lemma wrap_collide (x r : Z) :
  0 < r < 3 -> (x - 1) mod r = (x + 1) mod r.
Proof.
  intros Hr. assert (r = 1 \/ r = 2) as [-> | ->] by lia.
  - now rewrite !Z.mod_1_r.
  - replace (x + 1) with (x - 1 + 1 * 2) by lia. now rewrite Z_mod_plus_full.
Qed.

Lemma without_center_id (p : Point) (ps : list Point) :
  p ∉ ps -> without_center p ps = ps.
Proof.
  unfold without_center. induction ps as [|q ps IH]; [reflexivity|].
  intros Hp. apply not_elem_of_cons in Hp as [Hne Hp].
  rewrite filter_cons. destruct (decide (q <> p)) as [_|Hn].
  - now rewrite IH.
  - exfalso. apply Hn. intros ->. now apply Hne.
Qed.

Lemma center_not_neighbor (g : Grid) (p : Point) :
  2 <= rows g -> 2 <= cols g -> InBounds g p -> p ∉ neighbors8 g p.
Proof.
  intros Hr Hc Hin. destruct p as [x y]. destruct Hin as [Hx Hy].
  cbn [fst snd] in *.
  destruct (wrap_two_distinct x (rows g) Hr Hx) as [Hx1 Hx2].
  destruct (wrap_two_distinct y (cols g) Hc Hy) as [Hy1 Hy2].
  rewrite neighbors8_unfold, !elem_of_cons, elem_of_nil.
  intros H. decompose [or] H; try tauto;
    match goal with E : (_, _) = (_, _) |- _ => injection E; intros end;
    congruence.
Qed.

(** ** Construction *)

Lemma py_in_In (p : Point) (l : list Point) : py_in p l = true <-> In p l.
Proof.
  unfold py_in. rewrite existsb_exists. split.
  - intros (q & Hq & Heq). unfold point_eqb in Heq.
    apply andb_true_iff in Heq as [H1 H2].
    apply Z.eqb_eq in H1, H2. destruct p, q; cbn in *; now subst.
  - intros Hp. exists p. split; [assumption|].
    unfold point_eqb. now rewrite !Z.eqb_refl.
Qed.

Lemma init_WellFormed (_rows _cols : Z) (_startOn : list Point) :
  0 <= _rows -> 0 <= _cols -> WellFormed (Grid.__init__ _rows _cols _startOn).
Proof.
  intros Hr Hc. unfold WellFormed, Grid.__init__. cbn [rows cols grid].
  repeat split; try assumption.
  - rewrite length_map, range_length. f_equal. lia.
  - apply Forall_fmap, Forall_forall. intros k _. cbn. split.
    + rewrite length_map, range_length. f_equal. lia.
    + apply Forall_fmap, Forall_forall. intros i _. cbn.
      destruct (py_in (i, k) _startOn); auto.
Qed.

Lemma init_getcell (_rows _cols : Z) (_startOn : list Point) (r c : Z) :
  0 <= r < _rows -> 0 <= c < _cols ->
  getcell (Grid.__init__ _rows _cols _startOn) r c =
  Ok (if py_in (c, r) _startOn then 1 else 0).
Proof.
  intros Hr Hc. unfold getcell, Grid.__init__. cbn [grid].
  erewrite py_getitem_lookup; [cbn [bindR]|lia|].
  2:{ rewrite list_lookup_fmap, range_lookup by lia. reflexivity. }
  erewrite py_getitem_lookup; [|lia|].
  2:{ rewrite list_lookup_fmap, range_lookup by lia. reflexivity. }
  cbn. now rewrite !Z2Nat.id by lia.
Qed.

(** C3 (as the code has it).  For every [rows], [cols] and seed list, the
    constructed grid has the cell at row [r], column [c] alive exactly when
    the pair [(c, r)] -- column first, row second -- is in the seed list, and
    dead otherwise. *)
Theorem init_alive_iff_column_row_seed
    (_rows _cols : Z) (_startOn : list Point) (r c : Z) :
  0 <= r < _rows -> 0 <= c < _cols ->
  (In (c, r) _startOn -> getcell (Grid.__init__ _rows _cols _startOn) r c = Ok 1) /\
  (~ In (c, r) _startOn -> getcell (Grid.__init__ _rows _cols _startOn) r c = Ok 0).
Proof.
  intros Hr Hc. rewrite (init_getcell _ _ _ _ _ Hr Hc).
  destruct (py_in (c, r) _startOn) eqn:E.
  - split; [reflexivity|]. intros Hn. now apply py_in_In in E.
  - split; [|reflexivity]. intros Hi. apply py_in_In in Hi. congruence.
Qed.

Lemma init_alive_iff_column_row_seed_witness :
  getcell (Grid.__init__ 5 10 START_CELLS) 1 2 = Ok 1 /\
  getcell (Grid.__init__ 5 10 START_CELLS) 1 0 = Ok 0.
Proof.
  split.
  - apply (init_alive_iff_column_row_seed 5 10 START_CELLS 1 2); [lia|lia|].
    unfold START_CELLS. cbn. tauto.
  - apply (init_alive_iff_column_row_seed 5 10 START_CELLS 1 0); [lia|lia|].
    unfold START_CELLS. cbn. intros H. decompose [or] H; congruence.
Defined.

(** C3 as stated fails: the seed [(0, 2)] lies within a 5x10 grid when read
    as (row 0, column 2), yet the cell at row 0, column 2 is dead and the
    cell at row 2, column 0, which is not listed, is alive. *)
Lemma init_row_column_seed_counterexample :
  In (0, 2) [(0, 2)] /\ 0 <= 0 < 5 /\ 0 <= 2 < 10 /\
  getcell (Grid.__init__ 5 10 [(0, 2)]) 0 2 = Ok 0 /\
  ~ In (2, 0) [(0, 2)] /\
  getcell (Grid.__init__ 5 10 [(0, 2)]) 2 0 = Ok 1.
Proof.
  repeat split; try lia; try reflexivity.
  - now left.
  - intros [H|[]]. discriminate H.
Qed.

(** ** The neighbour count *)

(** C4 (as the code has it).  For every grid and in-bounds position the
    neighbour count is the number of alive entries among the eight positions
    obtained by offsetting by -1, 0, +1 in each axis (the zero offset left
    out) and reducing modulo [rows] and [cols]; on a grid with at least two
    rows and two columns the centre is none of these positions, so it is
    excluded from its own count. *)
Theorem neighborCount_counts_wrapped_neighbors (g : Grid) (p : Point) :
  WellFormed g -> InBounds g p ->
  neighborCount g p = Ok (count_alive g (neighbors8 g p)) /\
  (fst p = 0 -> (rows g - 1, snd p) ∈ neighbors8 g p) /\
  (snd p = 0 -> (fst p, cols g - 1) ∈ neighbors8 g p) /\
  (2 <= rows g -> 2 <= cols g ->
   (p ∉ neighbors8 g p) /\
   neighborCount g p = Ok (count_alive g (without_center p (neighbors8 g p)))).
Proof.
  intros Hwf Hin. split; [now apply neighborCount_wrapped|].
  split; [|split].
  - destruct p as [x y]. destruct Hin as [Hx Hy]. cbn [fst snd] in *.
    intros ->. rewrite neighbors8_unfold.
    rewrite (mod_pred 0 (rows g)), (Z.mod_small y (cols g)) by lia.
    do 3 apply list_elem_of_further. apply list_elem_of_here.
  - destruct p as [x y]. destruct Hin as [Hx Hy]. cbn [fst snd] in *.
    intros ->. rewrite neighbors8_unfold.
    rewrite (mod_pred 0 (cols g)), (Z.mod_small x (rows g)) by lia.
    do 1 apply list_elem_of_further. apply list_elem_of_here.
  - intros Hr Hc. pose proof (center_not_neighbor g p Hr Hc Hin) as Hp.
    split; [exact Hp|]. rewrite (without_center_id _ _ Hp).
    now apply neighborCount_wrapped.
Qed.

Lemma neighborCount_counts_wrapped_neighbors_witness :
  let g := Grid.__init__ 3 3 [(0, 0); (2, 2)] in
  neighborCount g (0, 0) = Ok (count_alive g (neighbors8 g (0, 0))) /\
  ((0, 0) ∉ neighbors8 g (0, 0)) /\
  neighborCount g (0, 0) =
  Ok (count_alive g (without_center (0, 0) (neighbors8 g (0, 0)))).
Proof.
  intros g.
  destruct (neighborCount_counts_wrapped_neighbors g (0, 0)) as (H1 & _ & _ & H2).
  - apply init_WellFormed; lia.
  - split; cbn; lia.
  - split; [exact H1|]. apply H2; cbn; lia.
Defined.

(** C4 as stated fails on a grid with one row: in [[0; 1; 0]] the only alive
    cell is the centre [(0, 1)], whose neighbours other than itself are all
    dead, and the count computed for it is 2. *)
Lemma neighborCount_center_counted_counterexample :
  let g := Grid.__init__ 1 3 [(1, 0)] in
  WellFormed g /\ InBounds g (0, 1) /\
  neighborCount g (0, 1) = Ok 2 /\
  count_alive g (without_center (0, 1) (neighbors8 g (0, 1))) = 0 /\
  neighborCount g (0, 1) <>
  Ok (count_alive g (without_center (0, 1) (neighbors8 g (0, 1)))).
Proof.
  intros g. split; [apply init_WellFormed; lia|].
  split; [split; cbn; lia|].
  split; [reflexivity|]. split; [reflexivity|].
  intros H. vm_compute in H. discriminate H.
Qed.

(** C9.  With at least three rows and three columns the centre and its eight
    wrapped neighbours are nine different positions, so the count takes each
    neighbour once and the centre not at all.  The count is in every case the
    number of alive entries of the list of wrapped neighbours, so a position
    that the list holds several times is counted as many times: with fewer
    than three rows or columns the list has repeated positions, and with one
    row or one column the centre itself is in the list. *)
Theorem neighborCount_distinct_from_three (g : Grid) (p : Point) :
  WellFormed g -> InBounds g p ->
  neighborCount g p = Ok (count_alive g (neighbors8 g p)) /\
  (3 <= rows g -> 3 <= cols g -> NoDup (p :: neighbors8 g p)) /\
  (rows g < 3 \/ cols g < 3 -> ~ NoDup (neighbors8 g p)) /\
  (rows g = 1 \/ cols g = 1 -> p ∈ neighbors8 g p).
Proof.
  intros Hwf Hin. split; [now apply neighborCount_wrapped|].
  destruct p as [x y]. destruct Hin as [Hx Hy]. cbn [fst snd] in *.
  rewrite neighbors8_unfold. repeat split.
  - intros Hr Hc.
    destruct (wrap_three_distinct x (rows g) Hr Hx) as (Ha & Hb & Hab).
    destruct (wrap_three_distinct y (cols g) Hc Hy) as (Hc' & Hd & Hcd).
    rewrite (Z.mod_small x (rows g)) in * by lia.
    rewrite (Z.mod_small y (cols g)) in * by lia.
    generalize dependent ((x - 1) mod rows g). intros a.
    generalize dependent ((x + 1) mod rows g). intros b.
    generalize dependent ((y - 1) mod cols g). intros c.
    generalize dependent ((y + 1) mod cols g). intros d. intros.
    repeat (apply NoDup_cons; split); try apply NoDup_nil_2;
      rewrite ?elem_of_cons, elem_of_nil; intros H; decompose [or] H;
      try tauto;
      match goal with E : (_, _) = (_, _) |- _ => injection E; intros end;
      congruence.
  - intros Hsmall Hnd. apply NoDup_cons in Hnd as [Hnotin _].
    apply Hnotin. destruct Hsmall as [Hr | Hc].
    + rewrite (wrap_collide x (rows g)) by lia.
      do 1 apply list_elem_of_further. apply list_elem_of_here.
    + rewrite (wrap_collide y (cols g)) by lia.
      do 4 apply list_elem_of_further. apply list_elem_of_here.
  - intros [Hr | Hc].
    + assert (x = 0) as -> by lia. rewrite Hr, !Z.mod_1_r.
      rewrite (Z.mod_small y (cols g)) by lia.
      do 3 apply list_elem_of_further. apply list_elem_of_here.
    + assert (y = 0) as -> by lia. rewrite Hc, !Z.mod_1_r.
      rewrite (Z.mod_small x (rows g)) by lia.
      do 1 apply list_elem_of_further. apply list_elem_of_here.
Qed.

Lemma neighborCount_distinct_from_three_witness :
  let g := Grid.__init__ 3 4 [(0, 0); (3, 2)] in
  neighborCount g (1, 1) = Ok (count_alive g (neighbors8 g (1, 1))) /\
  NoDup ((1, 1) :: neighbors8 g (1, 1)).
Proof.
  intros g.
  destruct (neighborCount_distinct_from_three g (1, 1)) as (H1 & H2 & _ & _).
  - apply init_WellFormed; lia.
  - split; cbn; lia.
  - split; [exact H1|]. apply H2; cbn; lia.
Defined.

(** ** The rule *)

(** C5.  For every grid and in-bounds position, with [n] the neighbour count
    that [neighborChecks] computes: a dead cell with
    [n = RESURRECTION_THRESHOLD] yields [(position, 1)]; an alive cell with
    [n] neither [LIFE_THRESHOLD] nor [RESURRECTION_THRESHOLD] yields
    [(position, 0)]; every other case yields [None]. *)
Theorem neighborChecks_rule (g : Grid) (p : Point) :
  WellFormed g -> InBounds g p ->
  exists n, neighborCount g p = Ok n /\
    (cell g p = 0 -> n = RESURRECTION_THRESHOLD ->
     neighborChecks g p = Ok (Some (p, 1))) /\
    (cell g p <> 0 -> n <> LIFE_THRESHOLD -> n <> RESURRECTION_THRESHOLD ->
     neighborChecks g p = Ok (Some (p, 0))) /\
    (~ (cell g p = 0 /\ n = RESURRECTION_THRESHOLD) ->
     ~ (cell g p <> 0 /\ n <> LIFE_THRESHOLD /\ n <> RESURRECTION_THRESHOLD) ->
     neighborChecks g p = Ok None).
Proof.
  intros Hwf Hin. exists (count_alive g (neighbors8 g p)).
  pose proof (neighborCount_wrapped g p Hwf Hin) as Hn.
  split; [exact Hn|].
  destruct p as [x y]. unfold neighborChecks. rewrite Hn. cbn [bindR].
  rewrite (getcell_cell g x y Hwf Hin). cbn [bindR].
  set (n := count_alive g (neighbors8 g (x, y))).
  set (v := cell g (x, y)).
  destruct (Z.eqb_spec n RESURRECTION_THRESHOLD) as [Hres|Hres];
    destruct (Z.eqb_spec n LIFE_THRESHOLD) as [Hlife|Hlife];
    destruct (Z.eqb_spec v 0) as [Hv|Hv];
    cbn [bindR negb andb]; repeat split; intros;
    first [reflexivity | contradiction | tauto | congruence].
Qed.

Lemma neighborChecks_rule_witness :
  let g := Grid.__init__ 5 10 START_CELLS in
  exists n, neighborCount g (1, 0) = Ok n /\
    (cell g (1, 0) = 0 -> n = RESURRECTION_THRESHOLD ->
     neighborChecks g (1, 0) = Ok (Some ((1, 0), 1))) /\
    (cell g (1, 0) <> 0 -> n <> LIFE_THRESHOLD -> n <> RESURRECTION_THRESHOLD ->
     neighborChecks g (1, 0) = Ok (Some ((1, 0), 0))) /\
    (~ (cell g (1, 0) = 0 /\ n = RESURRECTION_THRESHOLD) ->
     ~ (cell g (1, 0) <> 0 /\ n <> LIFE_THRESHOLD /\ n <> RESURRECTION_THRESHOLD) ->
     neighborChecks g (1, 0) = Ok None).
Proof.
  intros g. apply (neighborChecks_rule g (1, 0)).
  - apply init_WellFormed; lia.
  - split; cbn; lia.
Defined.

(** ** Comprehensions and the worker pool *)

Lemma comprehension_map {A B} (f : A -> result B) (h : A -> B) (l : list A) :
  Forall (fun a => f a = Ok (h a)) l -> comprehension f l = Ok (map h l).
Proof.
  induction 1 as [|a l Ha _ IH]; [reflexivity|].
  cbn [comprehension map]. rewrite Ha. cbn [bindR]. now rewrite IH.
Qed.

Lemma comprehension_app {A B} (f : A -> result B) (l1 l2 : list A) :
  comprehension f (l1 ++ l2) =
  (bs1 <- comprehension f l1;; bs2 <- comprehension f l2;; Ok (bs1 ++ bs2)).
Proof.
  induction l1 as [|a l1 IH]; cbn [comprehension app bindR].
  - destruct (comprehension f l2); reflexivity.
  - destruct (f a); cbn [bindR]; [|reflexivity]. rewrite IH.
    destruct (comprehension f l1); cbn [bindR]; [|reflexivity].
    destruct (comprehension f l2); reflexivity.
Qed.

Lemma comprehension_chunks {A B} (f : A -> result B) (fuel n : nat) (l : list A) :
  (0 < n)%nat -> (length l <= fuel)%nat ->
  (bs <- comprehension (comprehension f) (chunks fuel n l);; Ok (concat bs)) =
  comprehension f l.
Proof.
  intros Hn. revert l. induction fuel as [|fuel IH]; intros l Hl.
  - destruct l; [reflexivity|cbn in Hl; lia].
  - destruct l as [|a l]; [reflexivity|].
    cbn [chunks].
    rewrite <- (take_drop n (a :: l)) at 3. rewrite comprehension_app.
    cbn [comprehension].
    destruct (comprehension f (take n (a :: l))) as [b|e]; cbn [bindR];
      [|reflexivity].
    rewrite <- (IH (drop n (a :: l))).
    + destruct (comprehension (comprehension f) (chunks fuel n (drop n (a :: l))));
        reflexivity.
    + rewrite length_drop. cbn [length] in *. lia.
Qed.

Lemma chunksize_pos (p : Pool) (len : nat) : (0 < len)%nat -> (0 < chunksize p len)%nat.
Proof.
  intros Hlen. unfold chunksize.
  set (d := (4 * Pos.to_nat (processes p))%nat).
  assert (Hd : (0 < d)%nat) by (subst d; lia).
  destruct (Nat.eqb_spec (len mod d) 0) as [Hz|_]; [|lia].
  pose proof (Nat.div_mod_eq len d). nia.
Qed.

(** The result of [p.map] does not depend on the pool: it is the list of the
    results in the order of the input. *)
Lemma pool_map_comprehension {A B} (p : Pool) (f : A -> result B) (l : list A) :
  pool_map p f l = comprehension f l.
Proof.
  unfold pool_map. destruct l as [|a l]; [reflexivity|].
  apply comprehension_chunks; [|reflexivity].
  apply chunksize_pos. cbn. lia.
Qed.

(** ** The flattened index space *)

Lemma grid1Ds_InBounds (g : Grid) :
  WellFormed g ->
  exists pts, grid1Ds g = Ok pts /\ Forall (InBounds g) pts /\
              length pts = Z.to_nat (rows g * cols g).
Proof.
  intros (Hr & Hc & _).
  exists (map (fun i => (i / cols g, i mod cols g)) (range 0 (rows g * cols g))).
  split; [|split].
  - unfold grid1Ds. apply comprehension_map, Forall_forall.
    intros i Hi%elem_of_range.
    assert (0 < cols g) by nia.
    unfold py_floordiv, py_mod.
    destruct (Z.eqb_spec (cols g) 0); [lia|reflexivity].
  - apply Forall_fmap, Forall_forall. intros i Hi%elem_of_range.
    assert (0 < cols g) by nia.
    split; cbn [fst snd].
    + split; [apply Z.div_pos; lia|].
      apply Z.div_lt_upper_bound; lia.
    + now apply Z.mod_pos_bound.
  - rewrite length_map, range_length. f_equal. lia.
Qed.

(** ** Generations that change nothing *)

Lemma for_filter_lazy_None (pts : list Point) (s : Env) :
  Forall (fun pt => neighborChecks (self s) pt = Ok None) pts ->
  for_filter not_None
    (lazy_map (fun pt => reading (fun g => neighborChecks g pt)) pts) commit s =
  Ok (tt, s).
Proof.
  induction 1 as [|pt pts Hpt _ IH]; [reflexivity|].
  cbn [lazy_map map for_filter]. unfold bindM at 1, reading at 1.
  rewrite Hpt. cbn [not_None]. unfold bindM at 1, ret at 1. exact IH.
Qed.

Lemma for_filter_iter_None (n : nat) (s : Env) :
  for_filter not_None (iter (replicate n (@None Update))) commit s = Ok (tt, s).
Proof.
  induction n as [|n IH]; [reflexivity|].
  cbn [replicate iter map for_filter]. unfold bindM at 1, ret at 1.
  cbn [not_None]. unfold bindM at 1, ret at 1. exact IH.
Qed.

Lemma comprehension_None (g : Grid) (pts : list Point) :
  Forall (fun pt => neighborChecks g pt = Ok None) pts ->
  comprehension (neighborChecks g) pts = Ok (replicate (length pts) None).
Proof.
  induction 1 as [|pt pts Hpt _ IH]; [reflexivity|].
  cbn [comprehension length replicate]. rewrite Hpt. cbn [bindR].
  now rewrite IH.
Qed.

(** When no cell asks for a change, a generation by either strategy reads
    the timer twice and leaves everything else as it was. *)
Lemma step_still (st : Strategy) (s : Env) :
  WellFormed (self s) ->
  (forall p, InBounds (self s) p -> neighborChecks (self s) p = Ok None) ->
  step st s = Ok ((timer s (S (ticks s)) - timer s (ticks s))%Q, tick s 2).
Proof.
  intros Hwf Hnone.
  destruct (grid1Ds_InBounds _ Hwf) as (pts & Hpts & Hin & _).
  assert (Hall : Forall (fun pt => neighborChecks (self s) pt = Ok None) pts).
  { eapply Forall_impl; [exact Hin|]. intros pt Hpt. now apply Hnone. }
  destruct st as [|p]; cbn [step].
  - unfold iterateSingleCore, bindM at 1, defaultTimer at 1.
    unfold bindM at 1, reading at 1. cbn [self]. rewrite Hpts.
    unfold bindM at 1. rewrite for_filter_lazy_None by exact Hall.
    reflexivity.
  - unfold iterateMultiCore, bindM at 1, defaultTimer at 1.
    unfold bindM at 1, reading at 1. cbn [self]. rewrite Hpts.
    unfold bindM at 1, reading at 1. cbn [self].
    rewrite pool_map_comprehension, (comprehension_None _ _ Hall).
    unfold bindM at 1. rewrite for_filter_iter_None.
    reflexivity.
Qed.

Lemma neighborChecks_None (g : Grid) (p : Point) :
  WellFormed g -> InBounds g p ->
  (cell g p = 0 -> count_alive g (neighbors8 g p) <> RESURRECTION_THRESHOLD) ->
  (cell g p <> 0 -> count_alive g (neighbors8 g p) = LIFE_THRESHOLD \/
                    count_alive g (neighbors8 g p) = RESURRECTION_THRESHOLD) ->
  neighborChecks g p = Ok None.
Proof.
  intros Hwf Hin Hdead Halive. destruct p as [x y].
  unfold neighborChecks. rewrite (neighborCount_wrapped g _ Hwf Hin).
  cbn [bindR]. rewrite (getcell_cell g x y Hwf Hin). cbn [bindR].
  destruct (Z.eqb_spec (count_alive g (neighbors8 g (x, y))) RESURRECTION_THRESHOLD);
    destruct (Z.eqb_spec (count_alive g (neighbors8 g (x, y))) LIFE_THRESHOLD);
    destruct (Z.eqb_spec (cell g (x, y)) 0);
    cbn [bindR negb andb]; try reflexivity; tauto.
Qed.

Lemma count_alive_neighbors8 (g : Grid) (x y : Z) :
  WellFormed g -> 0 < rows g -> 0 < cols g ->
  count_alive g (neighbors8 g (x, y)) =
  cell g ((x - 1) mod rows g, (y - 1) mod cols g) +
  cell g (x mod rows g, (y - 1) mod cols g) +
  cell g ((x + 1) mod rows g, (y - 1) mod cols g) +
  cell g ((x - 1) mod rows g, y mod cols g) +
  cell g ((x + 1) mod rows g, y mod cols g) +
  cell g ((x - 1) mod rows g, (y + 1) mod cols g) +
  cell g (x mod rows g, (y + 1) mod cols g) +
  cell g ((x + 1) mod rows g, (y + 1) mod cols g).
Proof.
  intros Hwf Hr Hc.
  pose proof (neighbors8_InBounds g (x, y) Hr Hc) as Hnb.
  rewrite neighbors8_unfold in *.
  repeat match goal with
         | H : Forall _ (_ :: _) |- _ =>
             apply Forall_cons in H; destruct H as [?%(cell_binary g _ Hwf) H]
         end.
  rewrite !count_alive_cons, count_alive_nil by assumption. lia.
Qed.

(** ** The empty grid *)

Lemma AllDead_cell (g : Grid) (p : Point) : AllDead g -> cell g p = 0.
Proof.
  intros Hdead. unfold cell.
  destruct (grid g !! Z.to_nat (fst p)) as [r|] eqn:Hr; [|reflexivity].
  pose proof (proj1 (Forall_lookup _ _) Hdead _ _ Hr) as Hrow.
  destruct (r !! Z.to_nat (snd p)) as [v|] eqn:Hv; [|reflexivity].
  exact (proj1 (Forall_lookup _ _) Hrow _ _ Hv).
Qed.

Lemma AllDead_still (g : Grid) (p : Point) :
  WellFormed g -> AllDead g -> InBounds g p -> neighborChecks g p = Ok None.
Proof.
  intros Hwf Hdead Hin.
  assert (Hn : count_alive g (neighbors8 g p) = 0).
  { destruct p as [x y].
    rewrite count_alive_neighbors8
      by (try assumption; destruct Hin; cbn [fst snd] in *; lia).
    now rewrite !AllDead_cell. }
  apply neighborChecks_None; try assumption.
  - rewrite Hn. discriminate.
  - intros Hc. now rewrite AllDead_cell in Hc.
Qed.

(** C6.  On a grid whose cells are all dead, one generation by either
    strategy ends normally and leaves the grid as it was, all cells dead; and
    so does any sequence of generations, whatever strategy each one uses. *)
Theorem empty_grid_stays_empty (s : Env) :
  WellFormed (self s) -> AllDead (self s) ->
  (forall st, exists dt s',
      step st s = Ok (dt, s') /\ self s' = self s /\ AllDead (self s')) /\
  (forall sts, exists s',
      generations sts s = Ok (tt, s') /\ self s' = self s /\ AllDead (self s')).
Proof.
  intros Hwf Hdead.
  assert (Hstep : forall s0 st, WellFormed (self s0) -> AllDead (self s0) ->
             step st s0 = Ok ((timer s0 (S (ticks s0)) - timer s0 (ticks s0))%Q,
                              tick s0 2)).
  { intros s0 st Hwf0 Hdead0. apply step_still; [assumption|].
    intros p Hp. now apply AllDead_still. }
  split.
  - intros st. eexists _, _. rewrite Hstep by assumption.
    split; [reflexivity|]. split; [reflexivity|exact Hdead].
  - intros sts. revert s Hwf Hdead.
    induction sts as [|st sts IH]; intros s Hwf Hdead.
    + exists s. repeat split; assumption.
    + cbn [generations]. unfold bindM. rewrite Hstep by assumption.
      destruct (IH (tick s 2)) as (s' & Hrun & Hself & Hd); [assumption..|].
      exists s'. split; [exact Hrun|]. split; [exact Hself|exact Hd].
Qed.

Lemma empty_grid_stays_empty_witness :
  let s := start (Grid.__init__ 3 4 []) (fun n => inject_Z (Z.of_nat n)) in
  (forall st, exists dt s',
      step st s = Ok (dt, s') /\ self s' = self s /\ AllDead (self s')) /\
  (forall sts, exists s',
      generations sts s = Ok (tt, s') /\ self s' = self s /\ AllDead (self s')).
Proof.
  intros s. apply (empty_grid_stays_empty s).
  - apply init_WellFormed; lia.
  - cbn. repeat constructor.
Defined.

(** ** The block *)

(** Along one axis of length at least 3, a block covers its own two
    positions: of three consecutive wrapped positions at most two are
    covered, and when the middle one is covered exactly one of the other two
    is. *)
Lemma block_axis (x r0 r : Z) :
  3 <= r -> 0 <= x < r ->
  let am := ((x - 1) mod r - r0) mod r <? 2 in
  let a0 := (x - r0) mod r <? 2 in
  let ap := ((x + 1) mod r - r0) mod r <? 2 in
  negb (am && a0 && ap) = true /\ implb a0 (xorb am ap) = true.
Proof.
  intros Hr Hx. cbv zeta.
  rewrite !Zminus_mod_idemp_l.
  replace (x - 1 - r0) with (x - r0 - 1) by lia.
  replace (x + 1 - r0) with (x - r0 + 1) by lia.
  rewrite <- (Zminus_mod_idemp_l (x - r0) 1 r).
  rewrite <- (Zplus_mod_idemp_l (x - r0) 1 r).
  pose proof (Z.mod_pos_bound (x - r0) r ltac:(lia)) as Hu.
  set (u := (x - r0) mod r) in *.
  rewrite mod_pred, mod_succ by exact Hu.
  destruct (Z.eqb_spec u 0), (Z.eqb_spec (u + 1) r);
    destruct (Z.ltb_spec u 2);
    repeat match goal with
           | |- context [?a <? 2] => destruct (Z.ltb_spec a 2)
           end; cbn; split; first [reflexivity | lia].
Qed.

Lemma block_still (g : Grid) (r0 c0 : Z) (p : Point) :
  WellFormed g -> 3 <= rows g -> 3 <= cols g -> IsBlock g r0 c0 ->
  InBounds g p -> neighborChecks g p = Ok None.
Proof.
  intros Hwf Hr Hc HB Hin. destruct p as [x y].
  pose proof Hin as [Hx Hy]. cbn [fst snd] in Hx, Hy.
  destruct (block_axis x r0 (rows g) Hr Hx) as [Hx1 Hx2].
  destruct (block_axis y c0 (cols g) Hc Hy) as [Hy1 Hy2].
  apply neighborChecks_None; try assumption;
    rewrite count_alive_neighbors8 by (try assumption; lia);
    rewrite (Z.mod_small x (rows g)), (Z.mod_small y (cols g)) by lia;
    rewrite !HB
      by (split; cbn [fst snd]; first [apply Z.mod_pos_bound; lia | lia]);
    unfold in_block, RESURRECTION_THRESHOLD, LIFE_THRESHOLD; cbn [fst snd];
    revert Hx1 Hx2 Hy1 Hy2;
    generalize (((x - 1) mod rows g - r0) mod rows g <? 2);
    generalize (((x + 1) mod rows g - r0) mod rows g <? 2);
    generalize ((x - r0) mod rows g <? 2);
    generalize (((y - 1) mod cols g - c0) mod cols g <? 2);
    generalize (((y + 1) mod cols g - c0) mod cols g <? 2);
    generalize ((y - c0) mod cols g <? 2);
    intros b0 bp bm a0 ap am;
    destruct b0, bp, bm, a0, ap, am; cbn; intros;
    first [discriminate | lia].
Qed.

(** C7.  On a grid with at least three rows and three columns (which covers
    every grid large enough for the pattern not to wrap onto itself) whose
    alive cells are exactly those of a 2x2 block, one generation by either
    strategy ends normally and leaves the grid identical to its starting
    state. *)
Theorem block_is_still_life (s : Env) (r0 c0 : Z) (st : Strategy) :
  WellFormed (self s) -> 3 <= rows (self s) -> 3 <= cols (self s) ->
  IsBlock (self s) r0 c0 ->
  exists dt s', step st s = Ok (dt, s') /\ self s' = self s.
Proof.
  intros Hwf Hr Hc HB. eexists _, _. split.
  - apply step_still; [assumption|].
    intros p Hp. now apply (block_still _ r0 c0).
  - reflexivity.
Qed.

Lemma block_is_still_life_witness :
  let s := start (Grid.__init__ 4 5 [(1, 1); (2, 1); (1, 2); (2, 2)])
                 (fun n => inject_Z (Z.of_nat n)) in
  exists dt s', step Single s = Ok (dt, s') /\ self s' = self s.
Proof.
  intros s. apply (block_is_still_life s 1 1 Single).
  - apply init_WellFormed; lia.
  - cbn. lia.
  - cbn. lia.
  - intros [x y] [Hx Hy]. cbn in Hx, Hy.
    assert (Hxs : x = 0 \/ x = 1 \/ x = 2 \/ x = 3) by lia.
    assert (Hys : y = 0 \/ y = 1 \/ y = 2 \/ y = 3 \/ y = 4) by lia.
    destruct Hxs as [-> | [-> | [-> | ->]]];
      destruct Hys as [-> | [-> | [-> | [-> | ->]]]]; reflexivity.
Defined.

(** ** [run] with an unrecognised processing type *)

Lemma printed_nil (s : Env) : printed s [] = s.
Proof. destruct s. unfold printed. cbn. now rewrite app_nil_r. Qed.

Lemma printed_printed (s : Env) (l1 l2 : list string) :
  printed (printed s l1) l2 = printed s (l1 ++ l2).
Proof. unfold printed. cbn. now rewrite app_assoc. Qed.

Lemma run_body_invalid (p : Pool) (processing : string) (timeSum : Q) (s : Env) :
  processing <> "Multi"%string -> processing <> "Single"%string ->
  run_body p processing timeSum s =
  Ok (timeSum, printed s ["Please input a valid processing type."%string]).
Proof.
  intros HM HS. apply String.eqb_neq in HM, HS.
  unfold run_body. rewrite HM, HS. reflexivity.
Qed.

Lemma run_loop_invalid (p : Pool) (processing : string) (ns : list Z)
    (timeSum : Q) (s : Env) :
  processing <> "Multi"%string -> processing <> "Single"%string ->
  run_loop p processing ns timeSum s =
  Ok (timeSum,
      printed s (replicate (length ns)
                           "Please input a valid processing type."%string)).
Proof.
  intros HM HS. revert s. induction ns as [|n ns IH]; intros s.
  - cbn. now rewrite printed_nil.
  - cbn [run_loop]. unfold bindM. rewrite run_body_invalid by assumption.
    rewrite IH, printed_printed. reflexivity.
Qed.

Lemma run_invalid (p : Pool) (processing : string) (s : Env) :
  processing <> "Multi"%string -> processing <> "Single"%string ->
  run p processing s =
  Ok ((0 * 1000 / inject_Z ITERATION_COUNT)%Q,
      printed s (replicate (Z.to_nat ITERATION_COUNT)
                           "Please input a valid processing type."%string)).
Proof.
  intros HM HS. unfold run, bindM.
  rewrite run_loop_invalid, range_length by assumption. reflexivity.
Qed.

(** C8.  With a processing argument that is neither 'Single' nor 'Multi',
    an iteration of [run] prints the message and does nothing else: the grid
    is not stepped, the timer is not read and the time sum is passed on
    unchanged; [run] goes through all [ITERATION_COUNT] iterations, printing
    the message each time, and returns normally. *)
Theorem run_invalid_processing_is_reported (p : Pool) (processing : string) (s : Env) :
  processing <> "Multi"%string -> processing <> "Single"%string ->
  (forall timeSum s0, exists s1,
      run_body p processing timeSum s0 = Ok (timeSum, s1) /\
      stdout s1 = stdout s0 ++ ["Please input a valid processing type."%string] /\
      self s1 = self s0 /\ ticks s1 = ticks s0) /\
  (exists s',
      run_loop p processing (range 0 ITERATION_COUNT) 0%Q s = Ok (0%Q, s')) /\
  (exists mean s',
      run p processing s = Ok (mean, s') /\
      stdout s' = stdout s ++
                  replicate (Z.to_nat ITERATION_COUNT)
                            "Please input a valid processing type."%string /\
      ticks s' = ticks s).
Proof.
  intros HM HS. split; [|split].
  - intros timeSum s0. eexists. rewrite run_body_invalid by assumption.
    repeat split.
  - eexists. now rewrite run_loop_invalid by assumption.
  - eexists _, _. rewrite run_invalid by assumption. repeat split.
Qed.

Lemma run_invalid_processing_is_reported_witness :
  let s := start (Grid.__init__ ROWS COLS START_CELLS) (fun n => inject_Z (Z.of_nat n)) in
  exists mean s',
    run (mkPool 4) "Parallel" s = Ok (mean, s') /\
    stdout s' = replicate 1000 "Please input a valid processing type."%string /\
    ticks s' = 0%nat.
Proof.
  intros s.
  destruct (run_invalid_processing_is_reported (mkPool 4) "Parallel" s)
    as (_ & _ & mean & s' & Hrun & Hout & Hticks).
  - discriminate.
  - discriminate.
  - exists mean, s'. split; [exact Hrun|]. split; [exact Hout|exact Hticks].
Defined.

(** C10.  With a processing argument that is neither 'Single' nor 'Multi',
    [run] returns normally, every cell of the grid is as it was before the
    call, and the mean iteration time returned is 0. *)
Theorem run_invalid_processing_keeps_grid (p : Pool) (processing : string) (s : Env) :
  processing <> "Multi"%string -> processing <> "Single"%string ->
  exists mean s',
    run p processing s = Ok (mean, s') /\ self s' = self s /\ (mean == 0)%Q.
Proof.
  intros HM HS. eexists _, _. rewrite run_invalid by assumption.
  split; [reflexivity|]. split; reflexivity.
Qed.

Lemma run_invalid_processing_keeps_grid_witness :
  let s := start (Grid.__init__ ROWS COLS START_CELLS) (fun n => inject_Z (Z.of_nat n)) in
  exists mean s',
    run (mkPool 4) "single" s = Ok (mean, s') /\
    grid (self s') = grid (Grid.__init__ ROWS COLS START_CELLS) /\ (mean == 0)%Q.
Proof.
  intros s.
  destruct (run_invalid_processing_keeps_grid (mkPool 4) "single" s)
    as (mean & s' & Hrun & Hself & Hmean).
  - discriminate.
  - discriminate.
  - exists mean, s'. split; [exact Hrun|]. split; [now rewrite Hself|exact Hmean].
Defined.

(** ** The two strategies on the glider *)

Lemma for_filter_app {B} (keep : B -> bool) (it1 it2 : list (M B))
    (body : B -> M unit) (s : Env) :
  for_filter keep (it1 ++ it2) body s =
  match for_filter keep it1 body s with
  | Ok (_, s1) => for_filter keep it2 body s1
  | Raise e => Raise e
  end.
Proof.
  revert s. induction it1 as [|t it1 IH]; intros s; [reflexivity|].
  cbn [app for_filter]. unfold bindM.
  destruct (t s) as [[x s1]|e]; [|reflexivity].
  destruct ((if keep x then body x else ret tt) s1) as [[[] s2]|e];
    [|reflexivity].
  apply IH.
Qed.

Lemma iterateMultiCore_any_pool (p q : Pool) (s : Env) :
  iterateMultiCore p s = iterateMultiCore q s.
Proof.
  unfold iterateMultiCore, bindM at 1 6, defaultTimer at 1 3.
  unfold bindM at 1 5, reading at 1 3. cbn [self].
  destruct (grid1Ds (self s)) as [pts|e]; [|reflexivity].
  unfold bindM at 1 4, reading at 1 2. cbn [self].
  now rewrite !pool_map_comprehension.
Qed.

(** C1 (what the code does).  On the glider grid of the shipped
    configuration both strategies end normally, for every pool, and the two
    resulting grids differ: the cell at row 1, column 0 is born under
    [iterateMultiCore] and stays dead under [iterateSingleCore]. *)
Theorem iterateSingleCore_differs_from_iterateMultiCore (p : Pool) (tm : nat -> Q) :
  let s := start (Grid.__init__ ROWS COLS START_CELLS) tm in
  exists d1 s1 d2 s2,
    iterateSingleCore s = Ok (d1, s1) /\
    iterateMultiCore p s = Ok (d2, s2) /\
    grid (self s1) =
      [ [0;0;0;0;0;0;0;0;0;0];
        [0;0;1;0;0;0;0;0;0;0];
        [0;1;1;0;0;0;0;0;0;0];
        [0;0;0;0;0;0;0;0;0;0];
        [0;0;0;0;0;0;0;0;0;0] ] /\
    grid (self s2) =
      [ [0;0;0;0;0;0;0;0;0;0];
        [1;0;1;0;0;0;0;0;0;0];
        [0;1;1;0;0;0;0;0;0;0];
        [0;1;0;0;0;0;0;0;0;0];
        [0;0;0;0;0;0;0;0;0;0] ] /\
    self s1 <> self s2.
Proof.
  intros s. rewrite (iterateMultiCore_any_pool p (mkPool 1)).
  eexists _, _, _, _.
  split; [vm_compute; reflexivity|].
  split; [vm_compute; reflexivity|].
  split; [reflexivity|]. split; [reflexivity|].
  intros H. discriminate H.
Qed.

(** C2 (what the code does).  In [iterateSingleCore] on the glider grid the
    loop has, after the ten positions of row 0, already written the death of
    the cell at row 0, column 1; the evaluation of the next position,
    [(1, 0)], runs on that changed grid and returns [None], where the grid
    as it was at the start of the generation gives the birth [((1, 0), 1)]. *)
Theorem iterateSingleCore_reads_write_of_same_generation (tm : nat -> Q) :
  let g0 := Grid.__init__ ROWS COLS START_CELLS in
  let s0 := start g0 tm in
  let call := fun pt => reading (fun g => neighborChecks g pt) in
  exists pre post s1,
    grid1Ds g0 = Ok (pre ++ (1, 0) :: post) /\
    for_filter not_None (lazy_map call pre) commit s0 = Ok (tt, s1) /\
    for_filter not_None (lazy_map call (pre ++ (1, 0) :: post)) commit s0 =
    for_filter not_None (lazy_map call ((1, 0) :: post)) commit s1 /\
    cell g0 (0, 1) = 1 /\ cell (self s1) (0, 1) = 0 /\
    call (1, 0) s1 = Ok (None, s1) /\
    neighborChecks g0 (1, 0) = Ok (Some ((1, 0), 1)).
Proof.
  intros g0 s0 call.
  set (s1 := with_grid s0 {| rows := 5; cols := 10;
                             grid := [ [0;0;0;0;0;0;0;0;0;0];
                                       [0;0;1;0;0;0;0;0;0;0];
                                       [1;1;1;0;0;0;0;0;0;0];
                                       [0;0;0;0;0;0;0;0;0;0];
                                       [0;0;0;0;0;0;0;0;0;0] ] |}).
  exists (map (fun c => (0, c)) (range 0 10)),
         (drop 11 (map (fun i => (i / 10, i mod 10)) (range 0 50))),
         s1.
  assert (Hpre : for_filter not_None
                   (lazy_map call (map (fun c => (0, c)) (range 0 10)))
                   commit s0 = Ok (tt, s1))
    by (vm_compute; reflexivity).
  split; [vm_compute; reflexivity|].
  split; [exact Hpre|].
  split.
  { unfold lazy_map. rewrite map_app, for_filter_app.
    match goal with
    | |- match ?X with _ => _ end = _ =>
        replace X with (Ok (tt, s1) : result (unit * Env))
          by (symmetry; exact Hpre)
    end.
    reflexivity. }
  split; [reflexivity|]. split; [reflexivity|].
  split; vm_compute; reflexivity.
Qed.

(** ** Every generation of a well-formed grid ends normally *)

Lemma neighborChecks_total (g : Grid) (p : Point) :
  WellFormed g -> InBounds g p ->
  exists r, neighborChecks g p = Ok r /\
            (r = None \/ r = Some (p, 0) \/ r = Some (p, 1)).
Proof.
  intros Hwf Hin. destruct p as [x y]. unfold neighborChecks.
  rewrite (neighborCount_wrapped g _ Hwf Hin). cbn [bindR].
  rewrite (getcell_cell g x y Hwf Hin). cbn [bindR].
  destruct (count_alive g (neighbors8 g (x, y)) =? RESURRECTION_THRESHOLD),
           (count_alive g (neighbors8 g (x, y)) =? LIFE_THRESHOLD),
           (cell g (x, y) =? 0);
    cbn [bindR negb andb]; eexists; (split; [reflexivity|]); auto.
Qed.

Lemma setcell_WellFormed (s : Env) (p : Point) (v : Z) :
  WellFormed (self s) -> InBounds (self s) p -> v = 0 \/ v = 1 ->
  exists g', setcell p v s = Ok (tt, with_grid s g') /\
             WellFormed g' /\ rows g' = rows (self s) /\ cols g' = cols (self s).
Proof.
  intros Hwf Hin Hv.
  destruct (wf_lookup _ _ Hwf Hin) as (r & v0 & Hr & Hv0 & Hlen & _).
  destruct Hwf as (Hrows & Hcols & Hlg & Hall). destruct Hin as [Hx Hy].
  unfold setcell.
  rewrite (py_getitem_lookup _ _ _ (proj1 Hx) Hr). cbn [bindR].
  rewrite py_setitem_insert by lia. cbn [bindR].
  rewrite py_setitem_insert by lia. cbn [bindR].
  eexists. split; [reflexivity|].
  split; [|split; reflexivity].
  unfold WellFormed. cbn [rows cols grid].
  repeat split; try assumption.
  - now rewrite length_insert.
  - apply Forall_insert; [assumption|].
    pose proof (proj1 (Forall_lookup _ _) Hall _ _ Hr) as [_ Hbin].
    split; [now rewrite length_insert|].
    now apply Forall_insert.
Qed.

Lemma with_grid_self (s : Env) : with_grid s (self s) = s.
Proof. now destruct s. Qed.

Lemma commit_WellFormed (s : Env) (p : Point) (x : option Update) :
  WellFormed (self s) -> InBounds (self s) p ->
  x = None \/ x = Some (p, 0) \/ x = Some (p, 1) ->
  exists g', (if not_None x then commit x else ret tt) s = Ok (tt, with_grid s g') /\
             WellFormed g' /\ rows g' = rows (self s) /\ cols g' = cols (self s).
Proof.
  intros Hwf Hin [-> | [-> | ->]]; cbn [not_None commit].
  - exists (self s). rewrite with_grid_self. auto.
  - apply setcell_WellFormed; auto.
  - apply setcell_WellFormed; auto.
Qed.

Lemma InBounds_dims (g g' : Grid) (p : Point) :
  rows g' = rows g -> cols g' = cols g -> InBounds g p -> InBounds g' p.
Proof. unfold InBounds. intros -> ->. exact id. Qed.

Lemma for_filter_lazy_total (pts : list Point) (s : Env) :
  WellFormed (self s) -> Forall (InBounds (self s)) pts ->
  exists g',
    for_filter not_None
      (lazy_map (fun pt => reading (fun g => neighborChecks g pt)) pts) commit s =
    Ok (tt, with_grid s g') /\
    WellFormed g' /\ rows g' = rows (self s) /\ cols g' = cols (self s).
Proof.
  revert s. induction pts as [|pt pts IH]; intros s Hwf Hall.
  - exists (self s). rewrite with_grid_self. auto.
  - apply Forall_cons in Hall as [Hpt Hall].
    destruct (neighborChecks_total _ _ Hwf Hpt) as (x & Hx & Hcases).
    destruct (commit_WellFormed s pt x Hwf Hpt Hcases) as (g1 & Hc & Hwf1 & Hr1 & Hc1).
    destruct (IH (with_grid s g1)) as (g2 & Hrest & Hwf2 & Hr2 & Hc2).
    { exact Hwf1. }
    { eapply Forall_impl; [exact Hall|]. intros q. now apply InBounds_dims. }
    exists g2. cbn [lazy_map map for_filter].
    unfold bindM at 1, reading at 1. rewrite Hx.
    unfold bindM at 1. rewrite Hc.
    split; [exact Hrest|]. cbn [self with_grid] in *.
    split; [exact Hwf2|]. split; congruence.
Qed.

Lemma for_filter_iter_total (items : list (Point * option Update)) (s : Env) :
  WellFormed (self s) ->
  Forall (fun '(pt, x) => InBounds (self s) pt /\
                          (x = None \/ x = Some (pt, 0) \/ x = Some (pt, 1))) items ->
  exists g',
    for_filter not_None (iter (map snd items)) commit s = Ok (tt, with_grid s g') /\
    WellFormed g' /\ rows g' = rows (self s) /\ cols g' = cols (self s).
Proof.
  revert s. induction items as [|[pt x] items IH]; intros s Hwf Hall.
  - exists (self s). rewrite with_grid_self. auto.
  - apply Forall_cons in Hall as [[Hpt Hcases] Hall].
    destruct (commit_WellFormed s pt x Hwf Hpt Hcases) as (g1 & Hc & Hwf1 & Hr1 & Hc1).
    destruct (IH (with_grid s g1)) as (g2 & Hrest & Hwf2 & Hr2 & Hc2).
    { exact Hwf1. }
    { eapply Forall_impl; [exact Hall|]. intros [q y] [Hq Hy].
      split; [|exact Hy]. now apply (InBounds_dims (self s)). }
    exists g2. cbn [iter map snd for_filter].
    unfold bindM at 1, ret at 1. unfold bindM at 1. rewrite Hc.
    split; [exact Hrest|]. cbn [self with_grid] in *.
    split; [exact Hwf2|]. split; congruence.
Qed.

Lemma comprehension_total (g : Grid) (pts : list Point) :
  WellFormed g -> Forall (InBounds g) pts ->
  exists items : list (Point * option Update),
    comprehension (neighborChecks g) pts = Ok (map snd items) /\
    Forall (fun '(pt, x) => InBounds g pt /\
                            (x = None \/ x = Some (pt, 0) \/ x = Some (pt, 1))) items.
Proof.
  intros Hwf. induction 1 as [|pt pts Hpt _ (items & Hitems & Hall)].
  - exists []. split; [reflexivity|constructor].
  - destruct (neighborChecks_total _ _ Hwf Hpt) as (x & Hx & Hcases).
    exists ((pt, x) :: items). split.
    + cbn [comprehension map snd]. rewrite Hx. cbn [bindR]. now rewrite Hitems.
    + constructor; [split; assumption|exact Hall].
Qed.

(** A generation by either strategy, started on a well-formed grid, ends
    normally and leaves a well-formed grid of the same dimensions. *)
Lemma step_total (st : Strategy) (s : Env) :
  WellFormed (self s) ->
  exists dt s', step st s = Ok (dt, s') /\ WellFormed (self s') /\
                rows (self s') = rows (self s) /\ cols (self s') = cols (self s).
Proof.
  intros Hwf.
  destruct (grid1Ds_InBounds _ Hwf) as (pts & Hpts & Hin & _).
  destruct st as [|p]; cbn [step].
  - destruct (for_filter_lazy_total pts (tick s 1)) as (g' & Hloop & Hwf' & Hr & Hc);
      [assumption..|].
    eexists _, _. unfold iterateSingleCore, bindM at 1, defaultTimer at 1.
    unfold bindM at 1, reading at 1. cbn [self]. rewrite Hpts.
    unfold bindM at 1. unfold tick in Hloop. cbn [Nat.add] in Hloop.
    rewrite Hloop. split; [reflexivity|]. cbn [self]. auto.
  - destruct (comprehension_total _ pts Hwf Hin) as (items & Hitems & Hall).
    destruct (for_filter_iter_total items (tick s 1)) as (g' & Hloop & Hwf' & Hr & Hc);
      [assumption..|].
    eexists _, _. unfold iterateMultiCore, bindM at 1, defaultTimer at 1.
    unfold bindM at 1, reading at 1. cbn [self]. rewrite Hpts.
    unfold bindM at 1, reading at 1. cbn [self].
    rewrite pool_map_comprehension, Hitems.
    unfold bindM at 1. unfold tick in Hloop. cbn [Nat.add] in Hloop.
    rewrite Hloop. split; [reflexivity|]. cbn [self]. auto.
Qed.

(** * Further properties of the code *)

(** ** The constructor *)

(** X1.  [Grid(rows, cols, seeds)] never fails and stores [rows] and [cols]
    as given; its matrix has [rows] rows of [cols] cells (none for a
    dimension that is zero or negative) and every cell is 0 or 1. *)
Theorem init_shape (_rows _cols : Z) (_startOn : list Point) :
  let g := Grid.__init__ _rows _cols _startOn in
  rows g = _rows /\ cols g = _cols /\
  length (grid g) = Z.to_nat _rows /\
  Forall (fun r => length r = Z.to_nat _cols /\
                   Forall (fun v => v = 0 \/ v = 1) r) (grid g) /\
  (_rows <= 0 -> grid g = []).
Proof.
  cbv zeta. unfold Grid.__init__. cbn [rows cols grid].
  split; [reflexivity|]. split; [reflexivity|]. split; [|split].
  - rewrite length_map, range_length. f_equal. lia.
  - apply Forall_fmap, Forall_forall. intros k _. cbn. split.
    + rewrite length_map, range_length. f_equal. lia.
    + apply Forall_fmap, Forall_forall. intros i _. cbn.
      destruct (py_in (i, k) _startOn); auto.
  - intros Hle. unfold range.
    replace (Z.to_nat (_rows - 0)) with 0%nat by lia. reflexivity.
Qed.

(** X2.  The constructed grid depends only on which positions of the matrix
    the seed list holds: order and repetitions of the seeds do not matter,
    and seeds outside the matrix are ignored without any error. *)
Theorem init_depends_on_membership
    (_rows _cols : Z) (seeds1 seeds2 : list Point) :
  (forall i k, 0 <= i < _cols -> 0 <= k < _rows ->
               (In (i, k) seeds1 <-> In (i, k) seeds2)) ->
  Grid.__init__ _rows _cols seeds1 = Grid.__init__ _rows _cols seeds2.
Proof.
  intros Hsame. unfold Grid.__init__. f_equal.
  apply map_ext_in. intros k Hk%list_elem_of_In%elem_of_range.
  apply map_ext_in. intros i Hi%list_elem_of_In%elem_of_range.
  specialize (Hsame i k ltac:(lia) ltac:(lia)).
  destruct (py_in (i, k) seeds1) eqn:E1, (py_in (i, k) seeds2) eqn:E2;
    try reflexivity; exfalso.
  - apply py_in_In, Hsame, py_in_In in E1. congruence.
  - apply py_in_In, Hsame, py_in_In in E2. congruence.
Qed.

Lemma init_depends_on_membership_witness :
  Grid.__init__ 5 10 [(2, 1); (0, 2); (2, 1); (10, 0); (0, -1)] =
  Grid.__init__ 5 10 [(0, 2); (2, 1)].
Proof.
  apply (init_depends_on_membership 5 10). intros i k Hi Hk. cbn. split.
  - intros [H|[H|[H|[H|[H|[]]]]]]; injection H; intros; subst; auto; lia.
  - intros [H|[H|[]]]; injection H; intros; subst; auto.
Defined.

(** ** The neighbour count at any position *)

Lemma neighborCount_any (g : Grid) (p : Point) :
  WellFormed g -> 0 < rows g -> 0 < cols g ->
  neighborCount g p = Ok (count_alive g (neighbors8 g p)).
Proof.
  intros Hwf Hr Hc. destruct p as [x y].
  rewrite count_alive_neighbors8 by assumption.
  unfold neighborCount, py_sum. rewrite !range3. cbn [sum_from].
  rewrite !(neighborTerm_wrap g x y) by assumption.
  rewrite !Z.eqb_refl.
  replace (x - 1 =? x) with false by (symmetry; apply Z.eqb_neq; lia).
  replace (x + 1 =? x) with false by (symmetry; apply Z.eqb_neq; lia).
  replace (y - 1 =? y) with false by (symmetry; apply Z.eqb_neq; lia).
  replace (y + 1 =? y) with false by (symmetry; apply Z.eqb_neq; lia).
  cbn [andb bindR sum_from]. f_equal. lia.
Qed.

Lemma count_alive_bounds (g : Grid) (p : Point) :
  0 <= count_alive g (neighbors8 g p) <= 8.
Proof.
  unfold count_alive. split; [lia|].
  pose proof (length_filter (fun q => alive g q = true) (neighbors8 g p)) as H.
  unfold neighbors8 in H at 2. rewrite length_map in H. cbn [offsets8 length] in H.
  lia.
Qed.

(** X3.  On a well-formed grid with at least one cell the neighbour sum is
    computed without error for every pair of integers, inside the matrix or
    not, and lies between 0 and 8. *)
Theorem neighborCount_between_0_and_8 (g : Grid) (p : Point) :
  WellFormed g -> 0 < rows g -> 0 < cols g ->
  exists n, neighborCount g p = Ok n /\ 0 <= n <= 8.
Proof.
  intros Hwf Hr Hc. exists (count_alive g (neighbors8 g p)).
  split; [now apply neighborCount_any|apply count_alive_bounds].
Qed.

Lemma neighborCount_between_0_and_8_witness :
  exists n, neighborCount (Grid.__init__ 5 10 START_CELLS) (-3, 12) = Ok n /\
            0 <= n <= 8.
Proof.
  apply (neighborCount_between_0_and_8 (Grid.__init__ 5 10 START_CELLS) (-3, 12)).
  - apply init_WellFormed; lia.
  - cbn. lia.
  - cbn. lia.
Defined.

Lemma neighbors8_shift (g : Grid) (x y a b : Z) :
  neighbors8 g (x + a * rows g, y + b * cols g) = neighbors8 g (x, y).
Proof.
  rewrite !neighbors8_unfold.
  replace (x + a * rows g - 1) with (x - 1 + a * rows g) by lia.
  replace (x + a * rows g + 1) with (x + 1 + a * rows g) by lia.
  replace (y + b * cols g - 1) with (y - 1 + b * cols g) by lia.
  replace (y + b * cols g + 1) with (y + 1 + b * cols g) by lia.
  now rewrite !Z_mod_plus_full.
Qed.

(** X4.  The neighbour sum is periodic: moving the position by any number of
    whole grid heights and widths gives the same count. *)
Theorem neighborCount_periodic (g : Grid) (x y a b : Z) :
  WellFormed g -> 0 < rows g -> 0 < cols g ->
  neighborCount g (x + a * rows g, y + b * cols g) = neighborCount g (x, y).
Proof.
  intros Hwf Hr Hc.
  rewrite !neighborCount_any by assumption. now rewrite neighbors8_shift.
Qed.

Lemma neighborCount_periodic_witness :
  neighborCount (Grid.__init__ 5 10 START_CELLS) (1 + (-1) * 5, 0 + 2 * 10) =
  neighborCount (Grid.__init__ 5 10 START_CELLS) (1, 0).
Proof.
  apply (neighborCount_periodic (Grid.__init__ 5 10 START_CELLS) 1 0 (-1) 2).
  - apply init_WellFormed; lia.
  - cbn. lia.
  - cbn. lia.
Defined.

(** ** The flattened index space, in full *)

Lemma NoDup_range (a b : Z) : NoDup (range a b).
Proof.
  unfold range. apply NoDup_fmap_2; [|apply NoDup_seq].
  intros i j Hij. lia.
Qed.

Lemma flat_index_inj (c i j : Z) :
  c <> 0 -> (i / c, i mod c) = (j / c, j mod c) -> i = j.
Proof.
  intros Hc Heq. injection Heq as Hq Hr.
  rewrite (Z.div_mod i c Hc), (Z.div_mod j c Hc). congruence.
Qed.

Lemma flat_index_of (c x y : Z) :
  0 <= y < c -> ((x * c + y) / c, (x * c + y) mod c) = (x, y).
Proof.
  intros Hy. f_equal.
  - rewrite Z.div_add_l by lia. rewrite Z.div_small by lia. lia.
  - rewrite Z.add_comm, Z_mod_plus_full. now apply Z.mod_small.
Qed.

Lemma grid1Ds_points (g : Grid) :
  grid1Ds g =
  Ok (map (fun i => (i / cols g, i mod cols g)) (range 0 (rows g * cols g))).
Proof.
  unfold grid1Ds. apply comprehension_map, Forall_forall.
  intros i Hi%elem_of_range. unfold py_floordiv, py_mod.
  destruct (Z.eqb_spec (cols g) 0) as [Hz|_]; [|reflexivity].
  rewrite Hz in Hi. lia.
Qed.

Lemma flat_points_NoDup (r c : Z) :
  0 <= r -> 0 <= c ->
  NoDup (map (fun i => (i / c, i mod c)) (range 0 (r * c))).
Proof.
  intros Hr Hc. apply NoDup_fmap_2_strong; [|apply NoDup_range].
  intros i j Hi%elem_of_range Hj%elem_of_range.
  apply flat_index_inj. nia.
Qed.

Lemma flat_points_elem (r c : Z) (p : Point) :
  0 <= r -> 0 <= c ->
  p ∈ map (fun i => (i / c, i mod c)) (range 0 (r * c)) <->
  0 <= fst p < r /\ 0 <= snd p < c.
Proof.
  intros Hr Hc. destruct p as [x y]. rewrite list_elem_of_fmap. split.
  - intros (i & Heq & Hi%elem_of_range). injection Heq as -> ->.
    assert (0 < c) by nia.
    split; cbn [fst snd].
    + split; [apply Z.div_pos; lia|apply Z.div_lt_upper_bound; lia].
    + now apply Z.mod_pos_bound.
  - intros [Hx Hy]. cbn [fst snd] in *.
    exists (x * c + y). split.
    + now rewrite flat_index_of.
    + apply elem_of_range. nia.
Qed.

Lemma grid1Ds_cover (g : Grid) :
  WellFormed g ->
  exists pts, grid1Ds g = Ok pts /\ NoDup pts /\
              forall p, p ∈ pts <-> InBounds g p.
Proof.
  intros (Hr & Hc & _). eexists. split; [apply grid1Ds_points|].
  split; [now apply flat_points_NoDup|].
  intros p. now apply flat_points_elem.
Qed.

(** X5.  [grid1Ds] is built without error for every grid, also when [cols]
    is 0: entry number [n] is [(n // cols, n % cols)], there are
    [rows * cols] entries, and for non-negative dimensions the list holds
    every position of the matrix exactly once and nothing else. *)
Theorem grid1Ds_row_major (g : Grid) :
  exists pts,
    grid1Ds g = Ok pts /\
    length pts = Z.to_nat (rows g * cols g) /\
    (forall n : nat, (n < length pts)%nat ->
       pts !! n = Some (Z.of_nat n / cols g, Z.of_nat n mod cols g)) /\
    (0 <= rows g -> 0 <= cols g ->
     NoDup pts /\ forall p, p ∈ pts <-> InBounds g p).
Proof.
  eexists. split; [apply grid1Ds_points|].
  split; [|split].
  - rewrite length_map, range_length. f_equal. lia.
  - intros n Hn. rewrite length_map, range_length in Hn.
    rewrite list_lookup_fmap, range_lookup by exact Hn. reflexivity.
  - intros Hr Hc. split; [now apply flat_points_NoDup|].
    intros p. now apply flat_points_elem.
Qed.

(** ** What an update record can be *)

Lemma neighborChecks_next (g : Grid) (p : Point) :
  WellFormed g -> InBounds g p ->
  neighborChecks g p =
  Ok (if next_cell g p =? cell g p then None else Some (p, next_cell g p)).
Proof.
  intros Hwf Hin. destruct p as [x y]. unfold neighborChecks, next_cell.
  rewrite (neighborCount_wrapped g _ Hwf Hin). cbn [bindR].
  rewrite (getcell_cell g x y Hwf Hin). cbn [bindR].
  destruct (cell_binary g _ Hwf Hin) as [-> | ->];
    destruct (Z.eqb_spec (count_alive g (neighbors8 g (x, y))) RESURRECTION_THRESHOLD)
      as [Hres|Hres];
    destruct (Z.eqb_spec (count_alive g (neighbors8 g (x, y))) LIFE_THRESHOLD)
      as [Hlife|Hlife];
    cbn; try reflexivity;
    rewrite Hres in Hlife; discriminate Hlife.
Qed.

Lemma next_cell_binary (g : Grid) (p : Point) :
  next_cell g p = 0 \/ next_cell g p = 1.
Proof.
  unfold next_cell.
  destruct (cell g p =? 0),
           (count_alive g (neighbors8 g p) =? RESURRECTION_THRESHOLD),
           (count_alive g (neighbors8 g p) =? LIFE_THRESHOLD);
    cbn; auto.
Qed.

(** X6.  On a well-formed grid [neighborChecks] at a position of the matrix
    never fails and never returns an update that changes nothing: it returns
    either [None], when the rule keeps the cell as it is, or the update of
    that very position to the opposite of its current value, when the rule
    changes it. *)
Theorem neighborChecks_update_flips (g : Grid) (p : Point) :
  WellFormed g -> InBounds g p ->
  (neighborChecks g p = Ok None /\ next_cell g p = cell g p) \/
  (neighborChecks g p = Ok (Some (p, 1 - cell g p)) /\
   next_cell g p = 1 - cell g p).
Proof.
  intros Hwf Hin. rewrite (neighborChecks_next g p Hwf Hin).
  destruct (Z.eqb_spec (next_cell g p) (cell g p)) as [Heq|Hne].
  - left. split; [reflexivity|exact Heq].
  - right. assert (next_cell g p = 1 - cell g p) as ->; [|split; reflexivity].
    destruct (next_cell_binary g p), (cell_binary g p Hwf Hin); lia.
Qed.

Lemma neighborChecks_update_flips_witness :
  let g := Grid.__init__ 5 10 START_CELLS in
  (neighborChecks g (0, 1) = Ok None /\ next_cell g (0, 1) = cell g (0, 1)) \/
  (neighborChecks g (0, 1) = Ok (Some ((0, 1), 1 - cell g (0, 1))) /\
   next_cell g (0, 1) = 1 - cell g (0, 1)).
Proof.
  intros g. apply (neighborChecks_update_flips g (0, 1)).
  - apply init_WellFormed; lia.
  - split; cbn; lia.
Defined.

(** ** Writing a cell *)

Lemma setcell_spec (s : Env) (p : Point) (v : Z) :
  WellFormed (self s) -> InBounds (self s) p -> v = 0 \/ v = 1 ->
  exists g', setcell p v s = Ok (tt, with_grid s g') /\
             WellFormed g' /\ rows g' = rows (self s) /\ cols g' = cols (self s) /\
             forall q, InBounds (self s) q ->
                       cell g' q = if decide (q = p) then v else cell (self s) q.
Proof.
  intros Hwf Hin Hv.
  destruct (setcell_WellFormed s p v Hwf Hin Hv) as (g' & Hset & Hwf' & Hr' & Hc').
  exists g'. repeat (split; [assumption|]).
  destruct (wf_lookup _ _ Hwf Hin) as (r & v0 & Hr & Hv0 & Hlen & _).
  destruct Hwf as (Hrows & Hcols & Hlg & Hall). destruct Hin as [Hx Hy].
  unfold setcell in Hset.
  rewrite (py_getitem_lookup _ _ _ (proj1 Hx) Hr) in Hset. cbn [bindR] in Hset.
  rewrite py_setitem_insert in Hset by lia. cbn [bindR] in Hset.
  rewrite py_setitem_insert in Hset by lia. cbn [bindR] in Hset.
  injection Hset as Hg'. subst g'.
  intros q [Hqx Hqy]. unfold cell. cbn [grid].
  destruct (decide (q = p)) as [->|Hne].
  - rewrite list_lookup_insert_eq by lia.
    now rewrite list_lookup_insert_eq by lia.
  - destruct (decide (Z.to_nat (fst p) = Z.to_nat (fst q))) as [Heq|Hneq].
    + rewrite <- Heq, list_lookup_insert_eq, Hr by lia.
      rewrite list_lookup_insert_ne; [reflexivity|].
      intros Hsnd. apply Hne. destruct p, q. cbn [fst snd] in *.
      f_equal; lia.
    + now rewrite list_lookup_insert_ne.
Qed.

Lemma commit_spec (s : Env) (p : Point) (x : option Update) :
  WellFormed (self s) -> InBounds (self s) p ->
  x = None \/ x = Some (p, 0) \/ x = Some (p, 1) ->
  exists g', (if not_None x then commit x else ret tt) s = Ok (tt, with_grid s g') /\
             WellFormed g' /\ rows g' = rows (self s) /\ cols g' = cols (self s) /\
             forall q, InBounds (self s) q ->
                       cell g' q = match x with
                                   | Some (_, v) => if decide (q = p) then v
                                                    else cell (self s) q
                                   | None => cell (self s) q
                                   end.
Proof.
  intros Hwf Hin [-> | [-> | ->]]; cbn [not_None commit].
  - exists (self s). rewrite with_grid_self. auto 6.
  - apply setcell_spec; auto.
  - apply setcell_spec; auto.
Qed.

(** ** The two loops, cell by cell *)

(** The loop over a finished list of results: a position of the list ends
    with the value its result asks for, every other cell is untouched. *)
Lemma for_filter_iter_spec (f : Point -> option Update) (pts : list Point) (s : Env) :
  WellFormed (self s) -> Forall (InBounds (self s)) pts -> NoDup pts ->
  (forall pt, f pt = None \/ f pt = Some (pt, 0) \/ f pt = Some (pt, 1)) ->
  exists g',
    for_filter not_None (iter (map f pts)) commit s = Ok (tt, with_grid s g') /\
    WellFormed g' /\ rows g' = rows (self s) /\ cols g' = cols (self s) /\
    forall q, InBounds (self s) q ->
      cell g' q = if decide (q ∈ pts)
                  then match f q with Some (_, v) => v | None => cell (self s) q end
                  else cell (self s) q.
Proof.
  intros Hwf Hall Hnd Hf. revert s Hwf Hall.
  induction pts as [|pt pts IH]; intros s Hwf Hall.
  - exists (self s). rewrite with_grid_self. do 4 (split; [auto; fail|]).
    intros q _. destruct (decide (q ∈ [])) as [H%elem_of_nil|]; [tauto|reflexivity].
  - apply Forall_cons in Hall as [Hpt Hall]. apply NoDup_cons in Hnd as [Hnotin Hnd].
    destruct (commit_spec s pt (f pt) Hwf Hpt (Hf pt))
      as (g1 & Hc & Hwf1 & Hr1 & Hc1 & Hcell1).
    destruct (IH Hnd (with_grid s g1)) as (g2 & Hrest & Hwf2 & Hr2 & Hc2 & Hcell2).
    { exact Hwf1. }
    { eapply Forall_impl; [exact Hall|]. intros q. now apply InBounds_dims. }
    cbn [self with_grid] in *.
    exists g2. cbn [iter map for_filter].
    unfold bindM at 1, ret at 1. unfold bindM at 1. rewrite Hc.
    split; [exact Hrest|]. split; [exact Hwf2|].
    split; [congruence|]. split; [congruence|].
    intros q Hq.
    rewrite Hcell2 by (now apply (InBounds_dims (self s))).
    rewrite (Hcell1 q Hq).
    destruct (decide (q ∈ pts)) as [Hin|Hout].
    + assert (q <> pt) by (intros ->; contradiction).
      destruct (decide (q ∈ pt :: pts)) as [_|Hn];
        [|exfalso; apply Hn; now apply list_elem_of_further].
      destruct (f q) as [[? v]|]; [reflexivity|].
      destruct (f pt) as [[? v']|]; [|reflexivity].
      destruct (decide (q = pt)); [contradiction|reflexivity].
    + destruct (decide (q = pt)) as [->|Hne].
      * destruct (decide (pt ∈ pt :: pts)) as [_|Hn];
          [|exfalso; apply Hn; apply list_elem_of_here].
        destruct (f pt) as [[? v']|]; reflexivity.
      * destruct (decide (q ∈ pt :: pts)) as [Hin%elem_of_cons|_];
          [destruct Hin; contradiction|].
        destruct (f pt) as [[? v']|]; reflexivity.
Qed.

(** The loop over the lazy iterator: a cell outside the positions of the
    list is untouched, and the grid can come out as it went in only when no
    evaluation asked for a change. *)
Lemma for_filter_lazy_spec (pts : list Point) (s : Env) :
  WellFormed (self s) -> Forall (InBounds (self s)) pts -> NoDup pts ->
  exists g',
    for_filter not_None
      (lazy_map (fun pt => reading (fun g => neighborChecks g pt)) pts) commit s =
    Ok (tt, with_grid s g') /\
    WellFormed g' /\ rows g' = rows (self s) /\ cols g' = cols (self s) /\
    (forall q, InBounds (self s) q -> q ∉ pts -> cell g' q = cell (self s) q) /\
    (g' = self s ->
     Forall (fun pt => neighborChecks (self s) pt = Ok None) pts).
Proof.
  intros Hwf Hall Hnd. revert s Hwf Hall.
  induction pts as [|pt pts IH]; intros s Hwf Hall.
  - exists (self s). rewrite with_grid_self.
    do 4 (split; [auto; fail|]). split; [auto|constructor].
  - apply Forall_cons in Hall as [Hpt Hall]. apply NoDup_cons in Hnd as [Hnotin Hnd].
    pose proof (neighborChecks_next _ _ Hwf Hpt) as Hx.
    set (x := if next_cell (self s) pt =? cell (self s) pt then None
              else Some (pt, next_cell (self s) pt)) in Hx.
    assert (Hcases : x = None \/ x = Some (pt, 0) \/ x = Some (pt, 1)).
    { subst x. destruct (_ =? _); [now left|right].
      destruct (next_cell_binary (self s) pt) as [-> | ->]; auto. }
    destruct (commit_spec s pt x Hwf Hpt Hcases)
      as (g1 & Hc & Hwf1 & Hr1 & Hc1 & Hcell1).
    destruct (IH Hnd (with_grid s g1)) as (g2 & Hrest & Hwf2 & Hr2 & Hc2 & Hframe & Hsame).
    { exact Hwf1. }
    { eapply Forall_impl; [exact Hall|]. intros q. now apply InBounds_dims. }
    cbn [self with_grid] in *.
    exists g2. cbn [lazy_map map for_filter].
    unfold bindM at 1, reading at 1. rewrite Hx.
    unfold bindM at 1. rewrite Hc.
    split; [exact Hrest|]. split; [exact Hwf2|].
    split; [congruence|]. split; [congruence|]. split.
    + intros q Hq [Hne Hout]%not_elem_of_cons.
      rewrite Hframe by (try assumption; now apply (InBounds_dims (self s))).
      rewrite (Hcell1 q Hq). destruct x as [[? v]|]; [|reflexivity].
      destruct (decide (q = pt)); [contradiction|reflexivity].
    + intros Hg2.
      assert (Hpt2 : cell g2 pt = cell g1 pt).
      { apply Hframe; [now apply (InBounds_dims (self s))|exact Hnotin]. }
      rewrite Hg2, (Hcell1 pt Hpt) in Hpt2.
      destruct (Z.eqb_spec (next_cell (self s) pt) (cell (self s) pt)) as [Heq|Hneq];
        subst x.
      * cbn [not_None] in Hc. unfold ret in Hc. injection Hc as Hs.
        assert (Hg1 : g1 = self s)
          by (apply (f_equal self) in Hs; cbn [self with_grid] in Hs;
              now symmetry).
        subst g1. constructor; [exact Hx|]. apply Hsame. exact Hg2.
      * exfalso. destruct (decide (pt = pt)); [|contradiction]. congruence.
Qed.

(** ** One generation, in full *)

Lemma multi_step_spec (p : Pool) (s : Env) :
  WellFormed (self s) ->
  exists g',
    iterateMultiCore p s =
    Ok ((timer s (S (ticks s)) - timer s (ticks s))%Q, with_grid (tick s 2) g') /\
    WellFormed g' /\ rows g' = rows (self s) /\ cols g' = cols (self s) /\
    forall q, InBounds (self s) q -> cell g' q = next_cell (self s) q.
Proof.
  intros Hwf.
  destruct (grid1Ds_cover _ Hwf) as (pts & Hpts & Hnd & Hcover).
  assert (Hin : Forall (InBounds (self s)) pts)
    by (apply Forall_forall; intros q Hq; now apply Hcover).
  set (f := fun pt : Point =>
              if next_cell (self s) pt =? cell (self s) pt then @None Update
              else Some (pt, next_cell (self s) pt)).
  assert (Hres : comprehension (neighborChecks (self s)) pts = Ok (map f pts)).
  { apply comprehension_map. eapply Forall_impl; [exact Hin|].
    intros pt Hpt. now apply neighborChecks_next. }
  destruct (for_filter_iter_spec f pts (tick s 1))
    as (g' & Hloop & Hwf' & Hr & Hc & Hcell); try assumption.
  { intros pt. unfold f. destruct (_ =? _); [now left|right].
    destruct (next_cell_binary (self s) pt) as [-> | ->]; auto. }
  exists g'. cbn [self tick] in *.
  split; [|split; [exact Hwf'|split; [exact Hr|split; [exact Hc|]]]].
  - unfold iterateMultiCore, bindM at 1, defaultTimer at 1.
    unfold bindM at 1, reading at 1. cbn [self]. rewrite Hpts.
    unfold bindM at 1, reading at 1. cbn [self].
    rewrite pool_map_comprehension, Hres.
    unfold bindM at 1. unfold tick in Hloop. cbn [Nat.add] in Hloop.
    rewrite Hloop. reflexivity.
  - intros q Hq. rewrite (Hcell q Hq).
    destruct (decide (q ∈ pts)) as [_|Hn]; [|exfalso; now apply Hn, Hcover].
    unfold f. destruct (Z.eqb_spec (next_cell (self s) q) (cell (self s) q));
      congruence.
Qed.

Lemma single_step_spec (s : Env) :
  WellFormed (self s) ->
  exists g',
    iterateSingleCore s =
    Ok ((timer s (S (ticks s)) - timer s (ticks s))%Q, with_grid (tick s 2) g') /\
    WellFormed g' /\ rows g' = rows (self s) /\ cols g' = cols (self s) /\
    (g' = self s ->
     forall q, InBounds (self s) q -> neighborChecks (self s) q = Ok None).
Proof.
  intros Hwf.
  destruct (grid1Ds_cover _ Hwf) as (pts & Hpts & Hnd & Hcover).
  assert (Hin : Forall (InBounds (self s)) pts)
    by (apply Forall_forall; intros q Hq; now apply Hcover).
  destruct (for_filter_lazy_spec pts (tick s 1))
    as (g' & Hloop & Hwf' & Hr & Hc & _ & Hsame); try assumption.
  exists g'. cbn [self tick] in *.
  split; [|split; [exact Hwf'|split; [exact Hr|split; [exact Hc|]]]].
  - unfold iterateSingleCore, bindM at 1, defaultTimer at 1.
    unfold bindM at 1, reading at 1. cbn [self]. rewrite Hpts.
    unfold bindM at 1. unfold tick in Hloop. cbn [Nat.add] in Hloop.
    rewrite Hloop. reflexivity.
  - intros Hg q Hq. apply Hcover in Hq.
    exact (proj1 (Forall_forall _ _) (Hsame Hg) q Hq).
Qed.


(** X7.  [iterateMultiCore] is one synchronous generation of the game: on a
    well-formed grid it ends normally, for every pool, and every cell of the
    matrix ends with the value the rule gives it from the grid as it was
    when the call started. *)
Theorem iterateMultiCore_is_synchronous (p : Pool) (s : Env) :
  WellFormed (self s) ->
  exists dt s',
    iterateMultiCore p s = Ok (dt, s') /\
    forall q, InBounds (self s) q -> cell (self s') q = next_cell (self s) q.
Proof.
  intros Hwf.
  destruct (multi_step_spec p s Hwf) as (g' & Hrun & _ & _ & _ & Hcell).
  eexists _, _. split; [exact Hrun|]. exact Hcell.
Qed.

Lemma iterateMultiCore_is_synchronous_witness :
  let s := start (Grid.__init__ 5 10 START_CELLS) (fun n => inject_Z (Z.of_nat n)) in
  exists dt s',
    iterateMultiCore (mkPool 2) s = Ok (dt, s') /\
    forall q, InBounds (self s) q -> cell (self s') q = next_cell (self s) q.
Proof.
  intros s. apply (iterateMultiCore_is_synchronous (mkPool 2) s).
  apply init_WellFormed; lia.
Defined.



(** X9.  The two strategies have the same fixed points: a generation by
    either one leaves a well-formed grid exactly as it was if and only if
    no cell of the grid asks for a change. *)
Theorem step_unchanged_iff_still_life (st : Strategy) (s : Env) :
  WellFormed (self s) ->
  exists dt s',
    step st s = Ok (dt, s') /\
    (self s' = self s <->
     forall q, InBounds (self s) q -> neighborChecks (self s) q = Ok None).
Proof.
  intros Hwf.
  assert (Hback : forall g',
            step st s = Ok ((timer s (S (ticks s)) - timer s (ticks s))%Q,
                            with_grid (tick s 2) g') ->
            (forall q, InBounds (self s) q -> neighborChecks (self s) q = Ok None) ->
            g' = self s).
  { intros g' Hrun Hnone. rewrite (step_still st s Hwf Hnone) in Hrun.
    injection Hrun as Hs. now symmetry. }
  destruct st as [|p]; cbn [step] in *.
  - destruct (single_step_spec s Hwf) as (g' & Hrun & _ & _ & _ & Hsame).
    eexists _, _. split; [exact Hrun|]. cbn [self with_grid].
    split; [exact Hsame|now apply Hback].
  - destruct (multi_step_spec p s Hwf) as (g' & Hrun & _ & _ & _ & Hcell).
    eexists _, _. split; [exact Hrun|]. cbn [self with_grid].
    split; [|now apply Hback].
    intros Hg q Hq. rewrite (neighborChecks_next _ _ Hwf Hq).
    rewrite <- (Hcell q Hq), Hg. now rewrite Z.eqb_refl.
Qed.

Lemma step_unchanged_iff_still_life_witness :
  let s := start (Grid.__init__ 4 5 [(1, 1); (2, 1); (1, 2); (2, 2)])
                 (fun n => inject_Z (Z.of_nat n)) in
  exists dt s',
    step (Multi (mkPool 3)) s = Ok (dt, s') /\
    (self s' = self s <->
     forall q, InBounds (self s) q -> neighborChecks (self s) q = Ok None).
Proof.
  intros s. apply (step_unchanged_iff_still_life (Multi (mkPool 3)) s).
  apply init_WellFormed; lia.
Defined.

(** ** [run] with a recognised processing type *)








Lemma run_body_any_pool (p q : Pool) (processing : string) (timeSum : Q) (s : Env) :
  run_body p processing timeSum s = run_body q processing timeSum s.
Proof.
  unfold run_body, bindM. cbn -[iterateMultiCore iterateSingleCore Qplus String.eqb].
  destruct (String.eqb processing "Multi"); [|reflexivity].
  now rewrite (iterateMultiCore_any_pool p q).
Qed.

(** X11.  The pool plays no part in what [run] computes: for every
    processing argument and every starting state, two pools give the same
    outcome, the same grid and the same output. *)
Theorem run_any_pool (p q : Pool) (processing : string) (s : Env) :
  run p processing s = run q processing s.
Proof.
  unfold run, bindM.
  assert (Hloop : forall ns timeSum s0,
            run_loop p processing ns timeSum s0 = run_loop q processing ns timeSum s0).
  { induction ns as [|n ns IH]; intros timeSum s0; [reflexivity|].
    cbn [run_loop]. unfold bindM. rewrite (run_body_any_pool p q).
    destruct (run_body q processing timeSum s0) as [[ts s1]|e]; [|reflexivity].
    apply IH. }
  now rewrite Hloop.
Qed.

(** ** The data-generation loop of the main block *)




(** ** The text of a grid *)

Lemma map_range_lookup {A B} (h : A -> B) (d : A) (l : list A) (n : Z) :
  length l = Z.to_nat n ->
  map (fun i => h (default d (l !! Z.to_nat i))) (range 0 n) = map h l.
Proof.
  intros Hlen. apply list_eq. intros i. rewrite !list_lookup_fmap.
  destruct (decide (i < length l)%nat) as [Hlt|Hge].
  - rewrite range_lookup by lia.
    destruct (lookup_lt_is_Some_2 l i Hlt) as [a Ha]. rewrite Ha. cbn.
    replace (Z.to_nat (0 + Z.of_nat i)) with i by lia. now rewrite Ha.
  - rewrite (lookup_ge_None_2 l) by lia.
    rewrite lookup_ge_None_2; [reflexivity|]. rewrite range_length. lia.
Qed.

Lemma str_render (g : Grid) :
  WellFormed g -> __str__ g = Ok (render (grid g)).
Proof.
  intros Hwf. pose proof Hwf as (Hr & Hc & Hlen & Hrows).
  unfold __str__, render.
  erewrite comprehension_map; [cbn [bindR]|].
  2:{ apply Forall_forall. intros i Hi%elem_of_range.
      destruct (lookup_lt_is_Some_2 (grid g) (Z.to_nat i)) as [row Hrow]; [lia|].
      pose proof (proj1 (Forall_lookup _ _) Hrows _ _ Hrow) as [Hlr _].
      erewrite comprehension_map; [cbn [bindR]|].
      2:{ apply Forall_forall. intros k Hk%elem_of_range.
          rewrite (getcell_cell g i k Hwf) by (split; cbn; lia). cbn [bindR].
          unfold cell. cbn [fst snd]. rewrite Hrow.
          instantiate (1 := fun k => glyph (default 0 (row !! Z.to_nat k))).
          cbn beta. unfold glyph.
          destruct (row !! Z.to_nat k); reflexivity. }
      rewrite (map_range_lookup glyph 0 row (cols g) Hlr).
      instantiate (1 := fun i => render_row (default [] (grid g !! Z.to_nat i))).
      cbn beta. now rewrite Hrow. }
  now rewrite (map_range_lookup render_row [] (grid g) (rows g) Hlen).
Qed.

Lemma string_length_append (s1 s2 : string) :
  String.length (s1 ++ s2) = (String.length s1 + String.length s2)%nat.
Proof. induction s1 as [|a s1 IH]; cbn; [reflexivity|now rewrite IH]. Qed.

Lemma string_append_nil_r (s : string) : (s ++ "")%string = s.
Proof. induction s as [|a s IH]; cbn; [reflexivity|now rewrite IH]. Qed.

Lemma render_row_cons (v : Z) (row : list Z) :
  render_row (v :: row) = (glyph v ++ render_row row)%string.
Proof.
  unfold render_row. cbn [map String.concat].
  destruct (map glyph row) as [|x xs]; cbn [String.concat].
  - now rewrite string_append_nil_r.
  - reflexivity.
Qed.

Lemma render_cons (r : list Z) (m : list (list Z)) :
  m <> [] ->
  render (r :: m) =
  (render_row r ++ String (Ascii.ascii_of_nat 10) "" ++ render m)%string.
Proof. intros Hm. destruct m as [|r' m]; [contradiction|reflexivity]. Qed.

Lemma render_row_length (row : list Z) :
  String.length (render_row row) = (2 * length row)%nat.
Proof.
  induction row as [|v row IH]; [reflexivity|].
  rewrite render_row_cons, string_length_append, IH.
  unfold glyph. destruct (v =? 0); cbn [length]; cbn; lia.
Qed.

Lemma render_length (m : list (list Z)) (c : nat) :
  Forall (fun r => length r = c) m ->
  String.length (render m) = (length m * (2 * c + 1) - 1)%nat.
Proof.
  induction 1 as [|r m Hr Hm IH]; [reflexivity|].
  destruct m as [|r' m].
  - unfold render. cbn [map String.concat]. rewrite render_row_length, Hr.
    cbn [length]. lia.
  - rewrite render_cons by discriminate.
    rewrite !string_length_append, render_row_length, Hr, IH.
    cbn [length String.length]. lia.
Qed.

(** X13.  [str(grid)] of a well-formed grid never raises: the text has one
    line per row, each line the glyphs of the cells of that row in order,
    and so [rows * (2 * cols + 1) - 1] characters (none for a grid without
    rows). *)
Theorem str_of_well_formed_grid (g : Grid) :
  WellFormed g ->
  exists text,
    __str__ g = Ok text /\
    text = String.concat (String (Ascii.ascii_of_nat 10) "")
             (map (fun row => String.concat "" (map glyph row)) (grid g)) /\
    String.length text =
    (Z.to_nat (rows g) * (2 * Z.to_nat (cols g) + 1) - 1)%nat.
Proof.
  intros Hwf. exists (render (grid g)).
  split; [now apply str_render|]. split; [reflexivity|].
  destruct Hwf as (_ & _ & Hlen & Hrows).
  rewrite (render_length (grid g) (Z.to_nat (cols g))), Hlen; [reflexivity|].
  eapply Forall_impl; [exact Hrows|]. now intros r [Hr _].
Qed.

Lemma str_of_well_formed_grid_witness :
  exists text,
    __str__ (Grid.__init__ 2 3 [(1, 0)]) = Ok text /\
    text = String.concat (String (Ascii.ascii_of_nat 10) "")
             (map (fun row => String.concat "" (map glyph row))
                  (grid (Grid.__init__ 2 3 [(1, 0)]))) /\
    String.length text = 13%nat.
Proof.
  apply (str_of_well_formed_grid (Grid.__init__ 2 3 [(1, 0)])).
  apply init_WellFormed; lia.
Defined.

Lemma string_append_assoc (s1 s2 s3 : string) :
  ((s1 ++ s2) ++ s3)%string = (s1 ++ (s2 ++ s3))%string.
Proof. induction s1 as [|a s1 IH]; cbn; [reflexivity|now rewrite IH]. Qed.

Lemma glyph_prefix_inj (v1 v2 : Z) (X Y : string) :
  v1 = 0 \/ v1 = 1 -> v2 = 0 \/ v2 = 1 ->
  (glyph v1 ++ X)%string = (glyph v2 ++ Y)%string -> v1 = v2 /\ X = Y.
Proof.
  intros [-> | ->] [-> | ->] H; cbn in H;
    first [discriminate H | injection H as ->; auto].
Qed.

Lemma render_row_prefix_inj (row1 row2 : list Z) (X Y : string) :
  Forall (fun v => v = 0 \/ v = 1) row1 ->
  Forall (fun v => v = 0 \/ v = 1) row2 ->
  length row1 = length row2 ->
  (render_row row1 ++ X)%string = (render_row row2 ++ Y)%string ->
  row1 = row2 /\ X = Y.
Proof.
  intros H1. revert row2. induction H1 as [|v1 row1 Hv1 _ IH];
    intros row2 H2 Hlen Heq.
  - destruct row2; [|discriminate Hlen]. auto.
  - destruct H2 as [|v2 row2 Hv2 H2]; [discriminate Hlen|].
    rewrite !render_row_cons, !string_append_assoc in Heq.
    destruct (glyph_prefix_inj _ _ _ _ Hv1 Hv2 Heq) as [-> Hrest].
    destruct (IH row2 H2 ltac:(cbn in Hlen; lia) Hrest) as [-> ->]. auto.
Qed.

Lemma render_inj (c : nat) (m1 m2 : list (list Z)) :
  Forall (fun r => length r = c /\ Forall (fun v => v = 0 \/ v = 1) r) m1 ->
  Forall (fun r => length r = c /\ Forall (fun v => v = 0 \/ v = 1) r) m2 ->
  length m1 = length m2 -> render m1 = render m2 -> m1 = m2.
Proof.
  intros H1. revert m2. induction H1 as [|r1 m1 [Hl1 Hb1] Hm1 IH];
    intros m2 H2 Hlen Heq.
  - destruct m2; [reflexivity|discriminate Hlen].
  - destruct H2 as [|r2 m2 [Hl2 Hb2] H2]; [discriminate Hlen|].
    destruct m1 as [|r1' m1], m2 as [|r2' m2]; try discriminate Hlen.
    + unfold render in Heq. cbn [map String.concat] in Heq.
      rewrite <- (string_append_nil_r (render_row r1)),
              <- (string_append_nil_r (render_row r2)) in Heq.
      destruct (render_row_prefix_inj r1 r2 "" "" Hb1 Hb2 ltac:(congruence) Heq)
        as [-> _].
      reflexivity.
    + rewrite !render_cons in Heq by discriminate.
      destruct (render_row_prefix_inj r1 r2 _ _ Hb1 Hb2 ltac:(congruence) Heq)
        as [-> Hrest].
      injection Hrest as Hrest.
      f_equal. apply IH; [exact H2|cbn in Hlen; cbn; lia|exact Hrest].
Qed.

(** X14.  The text determines the grid: two well-formed grids of the same
    dimensions whose [str] is the same are the same grid. *)
Theorem str_determines_grid (g1 g2 : Grid) :
  WellFormed g1 -> WellFormed g2 ->
  rows g1 = rows g2 -> cols g1 = cols g2 ->
  __str__ g1 = __str__ g2 -> g1 = g2.
Proof.
  intros Hwf1 Hwf2 Hr Hc Heq.
  rewrite (str_render g1 Hwf1), (str_render g2 Hwf2) in Heq.
  injection Heq as Heq.
  destruct Hwf1 as (_ & _ & Hlen1 & Hrows1), Hwf2 as (_ & _ & Hlen2 & Hrows2).
  rewrite <- Hc in Hrows2.
  assert (Hg : grid g1 = grid g2).
  { apply (render_inj (Z.to_nat (cols g1))); try assumption. congruence. }
  destruct g1, g2. cbn in *. congruence.
Qed.

Lemma str_determines_grid_witness :
  Grid.__init__ 2 3 [(1, 0); (1, 0); (7, 7)] = Grid.__init__ 2 3 [(1, 0)].
Proof.
  apply str_determines_grid.
  - apply init_WellFormed; lia.
  - apply init_WellFormed; lia.
  - reflexivity.
  - reflexivity.
  - reflexivity.
Defined.

(** ** A position past the last row *)

Lemma getcell_past_last_row (g : Grid) (x y : Z) :
  WellFormed g -> rows g <= x -> getcell g x y = Raise IndexError.
Proof.
  intros (Hr & _ & Hlen & _) Hx. unfold getcell, py_getitem, py_slot.
  destruct (Z.ltb_spec x 0); [lia|].
  destruct (Z.leb_spec 0 x); [|lia].
  destruct (Z.ltb_spec x (Z.of_nat (length (grid g)))); [lia|reflexivity].
Qed.

(** X15.  For a row index at or past [rows] the neighbour sum is still
    computed, by wrap-around, but the cell itself cannot be read: as the
    conditions are short-circuit, [neighborChecks] returns [None] without
    reading it when the sum equals [LIFE_THRESHOLD] and raises [IndexError]
    for every other sum. *)
Theorem neighborChecks_past_last_row (g : Grid) (x y : Z) :
  WellFormed g -> 0 < cols g -> 0 < rows g <= x ->
  exists n, neighborCount g (x, y) = Ok n /\
    (n = LIFE_THRESHOLD -> neighborChecks g (x, y) = Ok None) /\
    (n <> LIFE_THRESHOLD -> neighborChecks g (x, y) = Raise IndexError).
Proof.
  intros Hwf Hc [Hr Hx]. exists (count_alive g (neighbors8 g (x, y))).
  pose proof (neighborCount_any g (x, y) Hwf Hr Hc) as Hn.
  split; [exact Hn|].
  unfold neighborChecks. rewrite Hn. cbn [bindR].
  rewrite (getcell_past_last_row g x y Hwf Hx).
  destruct (Z.eqb_spec (count_alive g (neighbors8 g (x, y))) RESURRECTION_THRESHOLD)
    as [Hres|Hres];
    destruct (Z.eqb_spec (count_alive g (neighbors8 g (x, y))) LIFE_THRESHOLD)
      as [Hlife|Hlife];
    cbn [bindR negb andb]; split; intros H;
    first [reflexivity | contradiction | rewrite Hres in H; discriminate H].
Qed.

Lemma neighborChecks_past_last_row_witness :
  let g := Grid.__init__ 5 10 START_CELLS in
  exists n, neighborCount g (6, 0) = Ok n /\
    (n = LIFE_THRESHOLD -> neighborChecks g (6, 0) = Ok None) /\
    (n <> LIFE_THRESHOLD -> neighborChecks g (6, 0) = Raise IndexError).
Proof.
  intros g. apply (neighborChecks_past_last_row g 6 0).
  - apply init_WellFormed; lia.
  - cbn. lia.
  - cbn. lia.
Defined.
